(** * Job-Hunt-Agent: the React front end and the pipeline boundary it consumes

    A shallow embedding of the components under [frontend/src]
    ([StatusBadge], [ApplicationsPage], [SearchForm], [JobSearchPage],
    [ProfilePage]) together with the parts of the relevance pipeline that
    the front end only consumes (aggregation, minimum-score filter, ranker).

    Conventions.
    - A JavaScript string is a [string]: a sequence of code units, taken
      in the range U+0000..U+00FF that [ascii] offers.
    - [null] and [undefined] results of [x || null] are [None].
    - Scores and weights are rationals ([Q]); salaries are integers ([Z]).
    - A component is a function from its props and state to what it
      renders; a handler is a function from the state to the calls it
      makes. *)

From Stdlib Require Import Ascii QArith Lqa.
From stdpp Require Import gmap strings list sorting.

Open Scope string_scope.
Open Scope list_scope.

(** ** JavaScript values and strings *)

Module Js.

(** The values a property read can produce in the components below. *)
Inductive value :=
  | VUndefined
  | VString (s : string)
  | VFunction (name : string)
  | VObject.

(** [ToBoolean]. *)
Definition truthy (v : value) : bool :=
  match v with
  | VUndefined => false
  | VString s => negb (String.eqb s "")
  | VFunction _ | VObject => true
  end.

(** [a || b]. *)
Definition or (a b : value) : value := if truthy a then a else b.

(** [ToString], as a template literal applies it. *)
Definition ToString (v : value) : string :=
  match v with
  | VUndefined => "undefined"
  | VString s => s
  | VFunction name => "function " +:+ name +:+ "() { [native code] }"
  | VObject => "[object Object]"
  end.

(** The properties every object literal inherits from [Object.prototype]
    (ECMAScript 20.1.3 and Annex B.2.2). *)
Definition ObjectPrototype : gmap string value :=
  list_to_map
    [ ("constructor", VFunction "Object");
      ("hasOwnProperty", VFunction "hasOwnProperty");
      ("isPrototypeOf", VFunction "isPrototypeOf");
      ("propertyIsEnumerable", VFunction "propertyIsEnumerable");
      ("toLocaleString", VFunction "toLocaleString");
      ("toString", VFunction "toString");
      ("valueOf", VFunction "valueOf");
      ("__proto__", VObject);
      ("__defineGetter__", VFunction "__defineGetter__");
      ("__defineSetter__", VFunction "__defineSetter__");
      ("__lookupGetter__", VFunction "__lookupGetter__");
      ("__lookupSetter__", VFunction "__lookupSetter__") ].

(** [obj[key]] on an object literal whose own properties are the strings
    of [own]: the own property if there is one, else the inherited one,
    else [undefined]. *)
Definition get (own : gmap string string) (key : string) : value :=
  match own !! key with
  | Some s => VString s
  | None => default VUndefined (ObjectPrototype !! key)
  end.

(** [WhiteSpace] and [LineTerminator] code units below U+0100:
    TAB, LF, VT, FF, CR, SP and NBSP. *)
Definition is_white_space (c : ascii) : bool :=
  match c with
  | "009" | "010" | "011" | "012" | "013" | " " | "160" => true
  | _ => false
  end%char.

(** [String.prototype.trimStart]. *)
Fixpoint trimStart (s : string) : string :=
  match s with
  | EmptyString => EmptyString
  | String c r => if is_white_space c then trimStart r else s
  end.

(** [String.prototype.trimEnd]. *)
Fixpoint trimEnd (s : string) : string :=
  match s with
  | EmptyString => EmptyString
  | String c r =>
      match trimEnd r with
      | EmptyString => if is_white_space c then EmptyString else String c EmptyString
      | r' => String c r'
      end
  end.

(** [String.prototype.trim]. *)
Definition trim (s : string) : string := trimEnd (trimStart s).

(** Every code unit of the string is white space. *)
Fixpoint blank (s : string) : bool :=
  match s with
  | EmptyString => true
  | String c r => is_white_space c && blank r
  end.

(** [s || null] for a string [s]. *)
Definition or_null (s : string) : option string :=
  if String.eqb s "" then None else Some s.

End Js.

(** ** components/StatusBadge.jsx *)

Module StatusBadge.
Import Js.

Definition statusStyles : gmap string string :=
  list_to_map
    [ ("pending", "bg-gray-100 text-gray-700");
      ("interview", "bg-blue-100 text-blue-700");
      ("offer", "bg-green-100 text-green-700");
      ("accepted", "bg-emerald-100 text-emerald-700");
      ("rejected", "bg-red-100 text-red-700");
      ("withdrawn", "bg-yellow-100 text-yellow-700") ].

(** The value of [statusStyles.pending]. *)
Definition pending_style : string := "bg-gray-100 text-gray-700".

(** The [<span>] the component returns. *)
Record span := { className : string; children : string }.

(** [const style = statusStyles[status] || statusStyles.pending] *)
Definition style (status : string) : value :=
  or (get statusStyles status) (get statusStyles "pending").

Definition StatusBadge (status : string) : span :=
  {| className :=
       "inline-block px-3 py-1 rounded-full text-xs font-medium capitalize "
       +:+ ToString (style status);
     children := status |}.

End StatusBadge.

(** ** pages/ApplicationsPage.jsx *)

Module ApplicationsPage.

Definition STATUSES : list string :=
  ["all"; "pending"; "interview"; "offer"; "accepted"; "rejected"; "withdrawn"].
Definition VALID_STATUSES : list string :=
  ["pending"; "interview"; "offer"; "accepted"; "rejected"; "withdrawn"].

(** The statuses section 6 of the design document lists for an
    [ApplicationRecord]. *)
Definition design_statuses : list string :=
  ["pending"; "applied"; "interview"; "offer"; "accepted"; "rejected"; "withdrawn"].

(** An [<option key={s} value={s}>] of the status [<select>]; its label,
    the capitalised status, is display only. *)
Record option_elt := { key : string; value : string }.

Definition status_options : list option_elt :=
  (λ s, {| key := s; value := s |}) <$> VALID_STATUSES.

(** The call [applicationsApi.updateStatus(id, { status })], a
    [PATCH /applications/id]. *)
Record patch := { application_id : string; status : string }.

(** [handleStatusChange(applicationId, newStatus)]: the request it sends. *)
Definition handleStatusChange (applicationId newStatus : string) : patch :=
  {| application_id := applicationId; status := newStatus |}.

(** The requests the status [<select>] of one application row can send:
    its [onChange] passes [e.target.value], the value of one of its
    options. *)
Definition status_updates (applicationId : string) : list patch :=
  (λ o, handleStatusChange applicationId (value o)) <$> status_options.

(** The query parameters of [fetchApplications] for a filter tab. *)
Definition list_params (filter : string) : option string :=
  if String.eqb filter "all" then None else Some filter.

End ApplicationsPage.

(** ** The records exchanged with the API

    The fields are those [JobCard] and [MatchScoreBar] read from a match;
    [posted_at], [country] and [level_score], which the front end does
    not read, are taken from section 3 of the design document. *)

Module Schema.

Record Location := {
  city : option string;
  state : option string;
  country : option string;
  remote : bool }.

Record Job := {
  job_id : string;
  title : string;
  company : string;
  location : option Location;
  level : option string;
  posted_at : option Z;
  source : option string;
  url : option string }.

(** A dimension that could not be computed is [None]. *)
Record RelevanceScore := {
  overall_score : Q;
  skills_score : option Q;
  experience_score : option Q;
  location_score : option Q;
  salary_score : option Q;
  level_score : option Q;
  matching_skills : list string;
  missing_skills : list string }.

Record JobMatch := { job : Job; score : RelevanceScore }.

End Schema.

(** ** components/SearchForm.jsx *)

Module SearchForm.
Import Js.

(** The [useState] cells of the form. *)
Record state := {
  query : string;
  location : string;
  sources : list string;
  minScore : Q;
  experienceLevel : string;
  employmentType : string;
  datePosted : string;
  remoteOnly : bool }.

Definition initial : state :=
  {| query := ""; location := ""; sources := ["jsearch"]; minScore := 0.3;
     experienceLevel := ""; employmentType := ""; datePosted := "all";
     remoteOnly := false |}.

(** The object passed to [onSearch]; [None] is [null]. *)
Record params := {
  p_query : string;
  p_location : option string;
  p_sources : list string;
  min_score : Q;
  experience_level : option string;
  employment_type : option string;
  date_posted : option string;
  remote_only : bool }.

(** [handleSubmit]: the calls of [onSearch] it makes, in order. *)
Definition handleSubmit (st : state) : list params :=
  if String.eqb (trim (query st)) "" then []
  else
    [ {| p_query := trim (query st);
         p_location := or_null (trim (location st));
         p_sources := sources st;
         min_score := minScore st;
         experience_level := or_null (experienceLevel st);
         employment_type := or_null (employmentType st);
         date_posted :=
           if negb (String.eqb (datePosted st) "all") then Some (datePosted st)
           else None;
         remote_only := remoteOnly st |} ].

(** [setQuery(e.target.value)], the [onChange] of the query input. *)
Definition setQuery (text : string) (st : state) : state :=
  {| query := text; location := location st; sources := sources st;
     minScore := minScore st; experienceLevel := experienceLevel st;
     employmentType := employmentType st; datePosted := datePosted st;
     remoteOnly := remoteOnly st |}.

(** [setMinScore(parseFloat(e.target.value))], the [onChange] of the
    Min Score slider (range 0 to 1 in steps of 0.05). *)
Definition setMinScore (value : Q) (st : state) : state :=
  {| query := query st; location := location st; sources := sources st;
     minScore := value; experienceLevel := experienceLevel st;
     employmentType := employmentType st; datePosted := datePosted st;
     remoteOnly := remoteOnly st |}.

(** [setLocation(e.target.value)], the [onChange] of the location input. *)
Definition setLocation (text : string) (st : state) : state :=
  {| query := query st; location := text; sources := sources st;
     minScore := minScore st; experienceLevel := experienceLevel st;
     employmentType := employmentType st; datePosted := datePosted st;
     remoteOnly := remoteOnly st |}.

(** [setDatePosted(e.target.value)], the [onChange] of the Date Posted
    select; [e.target.value] is the value of one of its options. *)
Definition setDatePosted (value : string) (st : state) : state :=
  {| query := query st; location := location st; sources := sources st;
     minScore := minScore st; experienceLevel := experienceLevel st;
     employmentType := employmentType st; datePosted := value;
     remoteOnly := remoteOnly st |}.

(** [toggleSource]. *)
Definition toggleSource (source : string) (st : state) : state :=
  {| query := query st; location := location st;
     sources :=
       if bool_decide (source ∈ sources st)
       then filter (λ s, s ≠ source) (sources st)
       else sources st ++ [source];
     minScore := minScore st; experienceLevel := experienceLevel st;
     employmentType := employmentType st; datePosted := datePosted st;
     remoteOnly := remoteOnly st |}.

(** The [<option>]s of the Date Posted [<select>]: value and label. *)
Definition date_options : list (string * string) :=
  [ ("all", "Any Time"); ("today", "Today"); ("3days", "Last 3 Days");
    ("week", "Last Week"); ("month", "Last Month") ].

(** The label of the option the [<select value={datePosted}>] shows as
    selected: the first option carrying the value, and the first option
    of all when none carries it. *)
Definition selected_date_label (st : state) : option string :=
  match filter (λ o, fst o = datePosted st) date_options with
  | o :: _ => Some (snd o)
  | [] => snd <$> head date_options
  end.

(** [disabled={loading || !query.trim()}] of the submit button. *)
Definition submit_disabled (loading : bool) (st : state) : bool :=
  loading || String.eqb (trim (query st)) "".

End SearchForm.

(** ** pages/JobSearchPage.jsx *)

Module JobSearchPage.
Import Schema.

(** A property value of the response body [res.data]. *)
Inductive field :=
  | FUndefined
  | FNumber (n : Z)
  | FText (s : string)
  | FMatches (ms : list JobMatch).

(** [obj.name] on a response body, a JSON object. *)
Definition prop (r : gmap string field) (name : string) : field :=
  default FUndefined (r !! name).

(** How [jobsApi.search] settles. *)
Inductive response :=
  | Resolved (data : gmap string field)
  | Rejected (detail : option string).

Record state := {
  results : option (gmap string field);
  loading : bool;
  error : option string }.

Definition initial : state :=
  {| results := None; loading := false; error := None |}.

(** [handleSearch], run to completion against the settled request. *)
Definition handleSearch (res : response) (st : state) : state :=
  match res with
  | Resolved data => {| results := Some data; loading := false; error := None |}
  | Rejected detail =>
      {| results := None; loading := false;
         error :=
           Some (default "Search failed. Make sure you have a profile set up."
                         (detail ≫= Js.or_null)) |}
  end.

(** [<JobCard key={match.job.job_id} match={match} onApply={handleApply} />] *)
Record card := { key : string; match_ : JobMatch }.

Inductive listing :=
  | NoMatches
  | Cards (cards : list card).

(** What the [results && (...)] block shows. *)
Record results_view := {
  total_fetched : field;
  total_matched : field;
  matches : listing }.

(** Rendering either succeeds or throws. *)
Inductive outcome (A : Type) :=
  | Rendered (a : A)
  | Throws.
Arguments Rendered {A} a.
Arguments Throws {A}.

(** [{value}] as a child of [<strong>]: React refuses a list of objects. *)
Definition render_child (v : field) : outcome field :=
  match v with
  | FMatches (_ :: _) => Throws
  | _ => Rendered v
  end.

(** [results.matches.length === 0 ? ... : results.matches.map(...)] *)
Definition render_matches (v : field) : outcome listing :=
  match v with
  | FMatches ms =>
      if Nat.eqb (length ms) 0 then Rendered NoMatches
      else Rendered (Cards ((λ m, {| key := job_id (job m); match_ := m |}) <$> ms))
  | FText s => if String.eqb s "" then Rendered NoMatches else Throws
  | FNumber _ | FUndefined => Throws
  end.

(** The results block of the page; [Rendered None] draws nothing. *)
Definition render_results (st : state) : outcome (option results_view) :=
  match results st with
  | None => Rendered None
  | Some r =>
      match render_child (prop r "total_fetched"),
            render_child (prop r "total_matched"),
            render_matches (prop r "matches") with
      | Rendered fetched, Rendered matched, Rendered l =>
          Rendered (Some {| total_fetched := fetched;
                            total_matched := matched;
                            matches := l |})
      | _, _, _ => Throws
      end
  end.

(** The matches a listing shows, top to bottom. *)
Definition shown (l : listing) : list JobMatch :=
  match l with
  | NoMatches => []
  | Cards cards => match_ <$> cards
  end.

(** The React keys of a listing, top to bottom. *)
Definition keys (l : listing) : list string :=
  match l with
  | NoMatches => []
  | Cards cards => key <$> cards
  end.

End JobSearchPage.

(** ** pages/ProfilePage.jsx *)

Module ProfilePage.
Import Js.

(** What a form cell bound to an [<input type="number">] holds: the text
    of the input, or the number loaded from the API. *)
Inductive cell :=
  | Text (s : string)
  | Num (n : Z).

(** The form state, as far as the controls modelled in this module go.
    The nested records ([location], [work_experience], [education],
    [preferred_locations]) are left out: no handler of this module reads
    them, and each copies them unchanged. [handleSave], which does read
    them, is not modelled on this record. *)
Record form := {
  full_name : string;
  email : string;
  phone : string;
  summary : string;
  skills : list string;
  certifications : list string;
  preferred_job_levels : list string;
  preferred_salary_min : cell;
  preferred_salary_max : cell;
  remote_preference : string;
  willing_to_relocate : bool }.

(** The initial [useState] value of [form]. *)
Definition empty_form : form :=
  {| full_name := ""; email := ""; phone := ""; summary := "";
     skills := []; certifications := []; preferred_job_levels := [];
     preferred_salary_min := Text ""; preferred_salary_max := Text "";
     remote_preference := "flexible"; willing_to_relocate := false |}.

(** A profile as the API returns it; a missing or [null] property is
    [None]. *)
Record profile := {
  user_id : option string;
  d_full_name : option string;
  d_email : option string;
  d_phone : option string;
  d_summary : option string;
  d_skills : option (list string);
  d_certifications : option (list string);
  d_preferred_job_levels : option (list string);
  d_preferred_salary_min : option Z;
  d_preferred_salary_max : option Z;
  d_remote_preference : option string;
  d_willing_to_relocate : option bool }.

(** [x || fallback] for an optional string [x]. *)
Definition string_or (x : option string) (fallback : string) : string :=
  default fallback (x ≫= or_null).

(** [x || ''] for an optional number [x]. *)
Definition number_or_blank (x : option Z) : cell :=
  match x with
  | Some n => if Z.eqb n 0 then Text "" else Num n
  | None => Text ""
  end.

Definition populateForm (data : profile) : form :=
  {| full_name := string_or (d_full_name data) "";
     email := string_or (d_email data) "";
     phone := string_or (d_phone data) "";
     summary := string_or (d_summary data) "";
     skills := default [] (d_skills data);
     certifications := default [] (d_certifications data);
     preferred_job_levels := default [] (d_preferred_job_levels data);
     preferred_salary_min := number_or_blank (d_preferred_salary_min data);
     preferred_salary_max := number_or_blank (d_preferred_salary_max data);
     remote_preference := string_or (d_remote_preference data) "flexible";
     willing_to_relocate := default false (d_willing_to_relocate data) |}.

(** [updateField('remote_preference', value)] *)
Definition update_remote_preference (value : string) (f : form) : form :=
  {| full_name := full_name f; email := email f; phone := phone f;
     summary := summary f; skills := skills f;
     certifications := certifications f;
     preferred_job_levels := preferred_job_levels f;
     preferred_salary_min := preferred_salary_min f;
     preferred_salary_max := preferred_salary_max f;
     remote_preference := value;
     willing_to_relocate := willing_to_relocate f |}.

(** [updateField('preferred_job_levels', value)] *)
Definition update_preferred_job_levels (value : list string) (f : form) : form :=
  {| full_name := full_name f; email := email f; phone := phone f;
     summary := summary f; skills := skills f;
     certifications := certifications f;
     preferred_job_levels := value;
     preferred_salary_min := preferred_salary_min f;
     preferred_salary_max := preferred_salary_max f;
     remote_preference := remote_preference f;
     willing_to_relocate := willing_to_relocate f |}.

(** [updateField('preferred_salary_min', value)] and
    [updateField('preferred_salary_max', value)] *)
Definition update_preferred_salary (min max : cell) (f : form) : form :=
  {| full_name := full_name f; email := email f; phone := phone f;
     summary := summary f; skills := skills f;
     certifications := certifications f;
     preferred_job_levels := preferred_job_levels f;
     preferred_salary_min := min;
     preferred_salary_max := max;
     remote_preference := remote_preference f;
     willing_to_relocate := willing_to_relocate f |}.

(** The [<option value>]s of the Remote Preference [<select>]. *)
Definition remote_options : list string :=
  ["required"; "preferred"; "flexible"; "not_interested"].

(** The levels the Job Levels checkboxes are drawn for. *)
Definition job_levels : list string :=
  ["entry"; "junior"; "mid"; "senior"; "lead"; "executive"].

(** The [checked] prop of the checkbox of [level]. *)
Definition level_checked (level : string) (f : form) : bool :=
  bool_decide (level ∈ preferred_job_levels f).

(** The [onChange] of the checkbox of [level], for an event whose
    [e.target.checked] is [checked]. *)
Definition level_onChange (level : string) (checked : bool) (f : form) : form :=
  if checked
  then update_preferred_job_levels (preferred_job_levels f ++ [level]) f
  else update_preferred_job_levels
         (filter (λ l, l ≠ level) (preferred_job_levels f)) f.

(** What the user can do in the editor. *)
Inductive event :=
  | Loaded (data : profile)
  | RemoteChosen (value : string)
  | LevelClicked (level : string)
  | SalaryMinTyped (text : string)
  | SalaryMaxTyped (text : string).

(** One event: a click on a controlled checkbox raises [onChange] with
    [e.target.checked] the negation of the [checked] prop it was drawn
    with. *)
Definition step (f : form) (e : event) : form :=
  match e with
  | Loaded data => populateForm data
  | RemoteChosen value => update_remote_preference value f
  | LevelClicked level =>
      level_onChange level (negb (level_checked level f)) f
  | SalaryMinTyped text =>
      update_preferred_salary (Text text) (preferred_salary_max f) f
  | SalaryMaxTyped text =>
      update_preferred_salary (preferred_salary_min f) (Text text) f
  end.

Definition run (f : form) (es : list event) : form := foldl step f es.

(** Events that respect the types of the API and of the controls, as far
    as [remote_preference] goes: a loaded profile carries one of the
    option values or none, and the [<select>] reports one of its
    options. *)
Definition remote_typed (e : event) : Prop :=
  match e with
  | Loaded data =>
      match d_remote_preference data with
      | Some v => v ∈ remote_options
      | None => True
      end
  | RemoteChosen v => v ∈ remote_options
  | _ => True
  end.

(** The same for [preferred_job_levels]: a loaded profile carries a
    duplicate-free list of levels or none, and only the six checkboxes
    drawn can be clicked. *)
Definition levels_typed (e : event) : Prop :=
  match e with
  | Loaded data =>
      match d_preferred_job_levels data with
      | Some ls => NoDup ls ∧ ls ⊆ job_levels
      | None => True
      end
  | LevelClicked level => level ∈ job_levels
  | _ => True
  end.

End ProfilePage.

(** ** The relevance pipeline behind [POST /jobs/search]

    The Python modules [relevance/matcher.py], [filters/job_filters.py]
    and [core/agent.py] are not part of the sources at hand; what the
    front end relies on is modelled from the design document. *)

Module Pipeline.
Import Schema.

(** Modelled from the spec: the five score dimensions of section 4.1
    (skills, experience, location, salary, level); [relevance/matcher.py]
    is missing. *)
Inductive Dimension := Skills | Experience | Place | Salary | Level.

Definition dimensions : list Dimension :=
  [Skills; Experience; Place; Salary; Level].

(** Modelled from the spec: the numerator and the denominator of
    [overall_score] as the aggregation accumulates them;
    [relevance/matcher.py] is missing. *)
Record tally := { weighted : Q; weight : Q }.

(** Modelled from the spec: one step of the weighted aggregation of
    section 3; [relevance/matcher.py] is missing. A dimension that was
    not computable leaves both sums alone. *)
Definition add_dimension (w : Dimension → Q) (s : Dimension → option Q)
    (t : tally) (d : Dimension) : tally :=
  match s d with
  | Some x => {| weighted := weighted t + w d * x; weight := weight t + w d |}
  | None => t
  end.

(** Modelled from the spec: [overall_score] of section 3, the weighted
    sum of the computable dimensions over the sum of their weights;
    [relevance/matcher.py] is missing. The spec gives no score when that
    sum of weights is zero: the result is then [None]. *)
Definition overall (w : Dimension → Q) (s : Dimension → option Q) : option Q :=
  let t := foldl (add_dimension w s) {| weighted := 0; weight := 0 |} dimensions in
  if Qeq_bool (weight t) 0 then None else Some (weighted t / weight t)%Q.

(** Modelled from the spec: the [RelevanceScore] the Hybrid Aggregator
    of section 4.2 returns for merged dimension scores [s];
    [relevance/matcher.py] is missing. *)
Definition aggregate (w : Dimension → Q) (s : Dimension → option Q)
    (matching missing : list string) : option RelevanceScore :=
  o ← overall w s;
  Some {| overall_score := o;
          skills_score := s Skills;
          experience_score := s Experience;
          location_score := s Place;
          salary_score := s Salary;
          level_score := s Level;
          matching_skills := matching;
          missing_skills := missing |}.

(** Modelled from the spec: the wording of section 3 for the numerator
    and the denominator, sums over the dimensions in which one that was
    not computable has no term; the aggregation above is compared with
    them. *)
Definition share (w : Dimension → Q) (s : Dimension → option Q) (d : Dimension) : Q :=
  match s d with Some x => w d * x | None => 0 end.
Definition counted (w : Dimension → Q) (s : Dimension → option Q) (d : Dimension) : Q :=
  match s d with Some _ => w d | None => 0 end.
Definition weighted_sum (w : Dimension → Q) (s : Dimension → option Q) : Q :=
  share w s Skills + share w s Experience + share w s Place
  + share w s Salary + share w s Level.
Definition weight_sum (w : Dimension → Q) (s : Dimension → option Q) : Q :=
  counted w s Skills + counted w s Experience + counted w s Place
  + counted w s Salary + counted w s Level.

(** Modelled from the spec: what a filter of section 4.3 returns, the
    survivors in input order and the ids of the jobs it rejected (the
    wording of the reasons of this filter is not given);
    [filters/job_filters.py] is missing. *)
Record FilterResult := {
  surviving_jobs : list JobMatch;
  excluded : list string }.

(** Modelled from the spec: "overall_score is below the threshold". *)
Definition below (threshold : Q) (m : JobMatch) : bool :=
  negb (Qle_bool threshold (overall_score (score m))).

(** Modelled from the spec: the Minimum score filter of section 4.3,
    which excludes a job whose [overall_score] is below the threshold;
    [filters/job_filters.py] is missing. *)
Definition min_score_filter (threshold : Q) (ms : list JobMatch) : FilterResult :=
  {| surviving_jobs := filter (λ m, below threshold m = false) ms;
     excluded := (λ m, job_id (job m)) <$> filter (λ m, below threshold m = true) ms |}.

(** Modelled from the spec: the threshold of section 4.3 when none is
    configured. *)
Definition default_threshold : Q := 0.

(** The three components of the sort key of a match. *)
Definition overall_of (m : JobMatch) : Q := overall_score (score m).
Definition posted_of (m : JobMatch) : option Z := posted_at (job m).
Definition id_of (m : JobMatch) : string := job_id (job m).

(** Modelled from the spec: the order of the optional [posted_at] of
    section 3; a job without it is taken as older than every dated one,
    a point the spec leaves open. *)
Definition posted_compare (a b : option Z) : comparison :=
  match a, b with
  | None, None => Eq
  | None, Some _ => Lt
  | Some _, None => Gt
  | Some x, Some y => Z.compare x y
  end.

(** Modelled from the spec: the sort key of step (5) of section 4.4,
    [overall_score] descending, then [posted_at] descending, then job
    id ascending; [core/agent.py] is missing. *)
Definition outranksb (a b : JobMatch) : bool :=
  match Qcompare (overall_score (score a)) (overall_score (score b)) with
  | Gt => true
  | Lt => false
  | Eq =>
      match posted_compare (posted_at (job a)) (posted_at (job b)) with
      | Gt => true
      | Lt => false
      | Eq => String.leb (job_id (job a)) (job_id (job b))
      end
  end.

Definition outranks (a b : JobMatch) : Prop := outranksb a b = true.

#[global] Instance outranks_dec : RelDecision outranks :=
  λ a b, decide (outranksb a b = true).

(** Modelled from the spec: steps (5) and (6) of section 4.4, sort the
    survivors and keep the first [max_results]; [core/agent.py] is
    missing. *)
Definition rank (max_results : nat) (survivors : list JobMatch) : list JobMatch :=
  take max_results (merge_sort outranks survivors).

End Pipeline.

(** ** Sample records *)

Module Samples.
Import Schema.

Definition sample_job (id : string) (posted : option Z) : Job :=
  {| job_id := id; title := "Python Developer"; company := "Acme";
     location := None; level := None; posted_at := posted;
     source := Some "jsearch"; url := None |}.

Definition sample_score (overall : Q) : RelevanceScore :=
  {| overall_score := overall; skills_score := Some overall;
     experience_score := None; location_score := None;
     salary_score := None; level_score := None;
     matching_skills := []; missing_skills := [] |}.

Definition sample_match (id : string) (posted : option Z) (overall : Q) : JobMatch :=
  {| job := sample_job id posted; score := sample_score overall |}.

(** The search form with a padded query typed and nothing else touched. *)
Definition typed_form : SearchForm.state :=
  SearchForm.setQuery " Python Developer " SearchForm.initial.

(** Three survivors with distinct ids: two tie on score and date. *)
Definition survivors3 : list JobMatch :=
  [ sample_match "job-b" (Some 20260101%Z) 0.5;
    sample_match "job-c" None 0.9;
    sample_match "job-a" (Some 20260101%Z) (1 # 2) ].

(** A search response with two matches and a property the page does not
    know. *)
Definition response2 : gmap string JobSearchPage.field :=
  list_to_map
    [ ("matches", JobSearchPage.FMatches
                    [ sample_match "job-c" None 0.9;
                      sample_match "job-a" (Some 20260101%Z) 0.5 ]);
      ("total_fetched", JobSearchPage.FNumber 7);
      ("total_matched", JobSearchPage.FNumber 2);
      ("took_ms", JobSearchPage.FNumber 1234) ].

(** A profile as the API may return it, without a remote preference. *)
Definition loaded_profile : ProfilePage.profile :=
  {| ProfilePage.user_id := Some "u-1";
     ProfilePage.d_full_name := Some "Ada";
     ProfilePage.d_email := None;
     ProfilePage.d_phone := None;
     ProfilePage.d_summary := None;
     ProfilePage.d_skills := Some ["python"; "sql"];
     ProfilePage.d_certifications := None;
     ProfilePage.d_preferred_job_levels := Some ["mid"; "senior"];
     ProfilePage.d_preferred_salary_min := Some 80000%Z;
     ProfilePage.d_preferred_salary_max := Some 150000%Z;
     ProfilePage.d_remote_preference := None;
     ProfilePage.d_willing_to_relocate := None |}.

(** A session in the editor. *)
Definition session : list ProfilePage.event :=
  [ ProfilePage.Loaded loaded_profile;
    ProfilePage.LevelClicked "lead";
    ProfilePage.RemoteChosen "required";
    ProfilePage.LevelClicked "mid";
    ProfilePage.SalaryMinTyped "90000" ].

(** Weights and dimension scores of a job that posts no salary. *)
Definition sample_weights (d : Pipeline.Dimension) : Q :=
  match d with
  | Pipeline.Skills => 0.4
  | Pipeline.Experience => 0.3
  | Pipeline.Place => 0.1
  | Pipeline.Salary => 0.1
  | Pipeline.Level => 0.1
  end.
Definition sample_dimensions (d : Pipeline.Dimension) : option Q :=
  match d with
  | Pipeline.Skills => Some (2 # 3)%Q
  | Pipeline.Experience => Some 1%Q
  | _ => None
  end.

End Samples.

(** ** More of JavaScript: [split], [join], results that may throw *)

Module JsMore.
Import Js.

(** A call either returns or throws. *)
Inductive result (A : Type) :=
  | Returned (a : A)
  | Thrown.
Arguments Returned {A} a.
Arguments Thrown {A}.

(** [s.split(sep)] for a separator of one code unit. *)
Fixpoint split_on (sep : ascii) (s : string) : list string :=
  match s with
  | EmptyString => [EmptyString]
  | String c r =>
      if Ascii.eqb c sep then EmptyString :: split_on sep r
      else
        match split_on sep r with
        | x :: xs => String c x :: xs
        | [] => [String c EmptyString]
        end
  end.

(** [l.join(sep)] for a list of strings. *)
Definition join (sep : string) (l : list string) : string :=
  match l with
  | [] => ""
  | x :: r => foldl (λ acc y, acc +:+ sep +:+ y) x r
  end.

(** [l.filter(Boolean)] for a list of optional strings: the non-empty
    strings, in order. *)
Definition filter_Boolean (l : list (option string)) : list string :=
  omap (λ x, x ≫= or_null) l.

(** [s.includes(t)] for strings: [t] occurs in [s]. *)
Fixpoint includes_string (s t : string) : bool :=
  String.prefix t s
  || match s with
     | EmptyString => false
     | String _ r => includes_string r t
     end.

(** [[...s]] for a string: its code units, one string each. *)
Fixpoint code_units (s : string) : list string :=
  match s with
  | EmptyString => []
  | String c r => String c EmptyString :: code_units r
  end.

End JsMore.

(** ** components/JobCard.jsx *)

Module JobCard.
Import Js JsMore Schema.

(** [job.location?.remote ? 'Remote'
      : [job.location?.city, job.location?.state].filter(Boolean).join(', ') || 'N/A'] *)
Definition locationStr (j : Job) : string :=
  if from_option remote false (location j) then "Remote"
  else
    default "N/A"
      (or_null (join ", " (filter_Boolean [location j ≫= city; location j ≫= state]))).

(** [score.matching_skills?.slice(0, 5)] and
    [score.missing_skills?.slice(0, 3)]: the chips drawn, green then red. *)
Definition skill_chips (r : RelevanceScore) : list string * list string :=
  (take 5 (matching_skills r), take 3 (missing_skills r)).

(** The call [onApply(job.job_id)] of the Apply button. *)
Definition apply_click (m : JobMatch) : string := job_id (job m).

End JobCard.

(** ** components/StatsCard.jsx *)

Module StatsCard.
Import Js JsMore.

Definition colors : gmap string string :=
  list_to_map
    [ ("blue", "bg-blue-50 text-blue-700");
      ("green", "bg-green-50 text-green-700");
      ("purple", "bg-purple-50 text-purple-700");
      ("orange", "bg-orange-50 text-orange-700") ].

(** [colors[color]?.split(' ')[1] || 'text-gray-800']: a string is split,
    [undefined] short-circuits the chain, and an inherited function or
    object has no [split] to call. *)
Definition value_class (color : string) : result string :=
  match get colors color with
  | VUndefined => Returned "text-gray-800"
  | VString s =>
      Returned (default "text-gray-800" (split_on " " s !! 1%nat ≫= or_null))
  | VFunction _ | VObject => Thrown
  end.

(** The class of the [<p>] that shows the value; the [color] prop
    defaults to ['blue']. *)
Definition StatsCard (color : option string) : result string :=
  match value_class (default "blue" color) with
  | Returned c => Returned ("text-3xl font-bold " +:+ c)
  | Thrown => Thrown
  end.

End StatsCard.

(** ** pages/ProfilePage.jsx: the tag helpers *)

Module ProfileTags.
Import Js ProfilePage.

(** The two [field] arguments [addTag] and [removeTag] are called with. *)
Inductive tag_field := skills_field | certifications_field.

(** [form[field]] *)
Definition tags (field : tag_field) (f : form) : list string :=
  match field with
  | skills_field => skills f
  | certifications_field => certifications f
  end.

(** [{ ...form, [field]: value }] *)
Definition with_tags (field : tag_field) (value : list string) (f : form) : form :=
  {| full_name := full_name f; email := email f; phone := phone f;
     summary := summary f;
     skills := match field with skills_field => value | _ => skills f end;
     certifications :=
       match field with certifications_field => value | _ => certifications f end;
     preferred_job_levels := preferred_job_levels f;
     preferred_salary_min := preferred_salary_min f;
     preferred_salary_max := preferred_salary_max f;
     remote_preference := remote_preference f;
     willing_to_relocate := willing_to_relocate f |}.

(** [addTag(field, value, setter)], called with the text of the input:
    the form and the text of the input afterwards. *)
Definition addTag (field : tag_field) (value : string) (f : form) : form * string :=
  if negb (String.eqb (trim value) "")
     && negb (bool_decide (trim value ∈ tags field f))
  then (with_tags field (tags field f ++ [trim value]) f, "")
  else (f, value).

(** [removeTag(field, value)] *)
Definition removeTag (field : tag_field) (value : string) (f : form) : form :=
  with_tags field (filter (λ s, s ≠ value) (tags field f)) f.

(** What the user can do with the tags of one field: press Add with
    some text in the input, or press the x of a tag. *)
Inductive tag_event :=
  | AddPressed (text : string)
  | RemovePressed (tag : string).

Definition tag_step (field : tag_field) (f : form) (e : tag_event) : form :=
  match e with
  | AddPressed text => fst (addTag field text f)
  | RemovePressed tag => removeTag field tag f
  end.

(** A tag as [addTag] stores it: trimmed and not empty. *)
Definition clean (tag : string) : Prop := trim tag = tag ∧ tag ≠ "".

End ProfileTags.

(** ** pages/ProfilePage.jsx: the lists of entries

    [work_experience], [education] and [preferred_locations] are arrays
    of objects. An object is a map from property names to values; an
    array slot is an object, [undefined], or a hole left by an
    assignment past the end. *)

Module ProfileEntries.
Import Js JsMore.

Inductive val :=
  | Str (s : string)
  | Bool (b : bool)
  | Tags (l : list string).

Inductive slot :=
  | Hole
  | Undefined
  | Item (o : gmap string val).

Definition EMPTY_EXP : gmap string val :=
  list_to_map
    [ ("company", Str ""); ("position", Str ""); ("start_date", Str "");
      ("end_date", Str ""); ("description", Str ""); ("skills", Tags []);
      ("is_current", Bool false) ].
Definition EMPTY_EDU : gmap string val :=
  list_to_map
    [ ("institution", Str ""); ("degree", Str ""); ("field", Str "");
      ("graduation_date", Str ""); ("gpa", Str ""); ("honors", Str "") ].
Definition EMPTY_LOC : gmap string val :=
  list_to_map
    [ ("city", Str ""); ("state", Str ""); ("country", Str "");
      ("remote", Bool false) ].

(** [ToBoolean]; an array is truthy. *)
Definition truthy_val (v : val) : bool :=
  match v with
  | Str s => negb (String.eqb s "")
  | Bool b => b
  | Tags _ => true
  end.

(** [[...a]]: the iterator reads a hole as [undefined]. *)
Definition spread (a : list slot) : list slot :=
  (λ s, match s with Hole => Undefined | _ => s end) <$> a.

(** [{ ...x }] for the value of a slot: [undefined] spreads to nothing. *)
Definition object_of (x : option slot) : gmap string val :=
  match x with
  | Some (Item o) => o
  | _ => ∅
  end.

(** [a[i] = s]: past the end the array grows, leaving holes. *)
Definition assign (i : nat) (s : slot) (a : list slot) : list slot :=
  if decide (i < length a) then <[i := s]> a
  else a ++ replicate (i - length a) Hole ++ [s].

(** [a.filter((_, idx) => idx !== i)], the indices counted from [k];
    [filter] does not visit holes. *)
Fixpoint filter_index (k i : nat) (a : list slot) : list slot :=
  match a with
  | [] => []
  | s :: r =>
      match s with
      | Hole => filter_index (S k) i r
      | _ => if Nat.eqb k i then filter_index (S k) i r
             else s :: filter_index (S k) i r
      end
  end.

(** [addExperience], [addEducation], [addPrefLocation]:
    [[...a, { ...EMPTY }]] *)
Definition add_entry (empty : gmap string val) (a : list slot) : list slot :=
  spread a ++ [Item empty].
Definition addExperience : list slot → list slot := add_entry EMPTY_EXP.
Definition addEducation : list slot → list slot := add_entry EMPTY_EDU.
Definition addPrefLocation : list slot → list slot := add_entry EMPTY_LOC.

(** [removeExperience], [removeEducation], [removePrefLocation] *)
Definition remove_entry (i : nat) (a : list slot) : list slot := filter_index 0 i a.

(** [updateEducation] and [updatePrefLocation]:
    [updated = [...a]; updated[i] = { ...updated[i], [field]: value }] *)
Definition update_entry (i : nat) (field : string) (value : val) (a : list slot)
    : list slot :=
  assign i (Item (<[field := value]> (object_of (spread a !! i)))) (spread a).

(** [updateExperience]: as above, and
    [if (field === 'is_current' && value) updated[i].end_date = ''] *)
Definition updateExperience (i : nat) (field : string) (value : val)
    (a : list slot) : list slot :=
  assign i
    (Item (if String.eqb field "is_current" && truthy_val value
           then <["end_date" := Str ""]>
                  (<[field := value]> (object_of (spread a !! i)))
           else <[field := value]> (object_of (spread a !! i))))
    (spread a).

(** [x.skills.includes(skill)], where [x] is the value of a slot:
    reading [skills] of [undefined] throws, and so does calling
    [includes] on a value that has none. *)
Definition skills_include (x : option slot) (skill : string) : result bool :=
  match x with
  | Some (Item o) =>
      match o !! "skills" with
      | Some (Tags l) => Returned (bool_decide (skill ∈ l))
      | Some (Str s) => Returned (includes_string s skill)
      | Some (Bool _) | None => Thrown
      end
  | _ => Thrown
  end.

(** [[...x.skills, skill]] once [x.skills.includes] was called. *)
Definition skills_with (o : gmap string val) (skill : string) : list string :=
  match o !! "skills" with
  | Some (Tags l) => l ++ [skill]
  | Some (Str s) => code_units s ++ [skill]
  | _ => [skill]
  end.

(** [addExpSkill(i)]: the array and the texts of the skill inputs
    afterwards. [newExpSkill] maps an index to the text typed for it. *)
Definition addExpSkill (i : nat) (newExpSkill : gmap nat string) (a : list slot)
    : result (list slot * gmap nat string) :=
  if String.eqb (trim (default "" (newExpSkill !! i))) "" then Returned (a, newExpSkill)
  else
    match skills_include (a !! i) (trim (default "" (newExpSkill !! i))) with
    | Thrown => Thrown
    | Returned true => Returned (a, newExpSkill)
    | Returned false =>
        Returned
          (assign i
             (Item (<["skills" :=
                       Tags (skills_with (object_of (spread a !! i))
                               (trim (default "" (newExpSkill !! i))))]>
                      (object_of (spread a !! i))))
             (spread a),
           <[i := ""]> newExpSkill)
    end.

(** [removeExpSkill(i, skill)]:
    [updated[i] = { ...updated[i], skills: updated[i].skills.filter(s => s !== skill) }] *)
Definition removeExpSkill (i : nat) (skill : string) (a : list slot)
    : result (list slot) :=
  match spread a !! i with
  | Some (Item o) =>
      match o !! "skills" with
      | Some (Tags l) =>
          Returned (assign i (Item (<["skills" := Tags (filter (λ s, s ≠ skill) l)]> o))
                      (spread a))
      | _ => Thrown
      end
  | _ => Thrown
  end.

(** No slot is a hole. *)
Definition holeless (a : list slot) : Prop := Hole ∉ a.

(** Every slot holds an object with a list of skills, which is what the
    editor reads when it draws an experience. *)
Definition listed (a : list slot) : Prop :=
  Forall (λ s, ∃ o l, s = Item o ∧ o !! "skills" = Some (Tags l)) a.

(** The fields the inputs of an experience pass to [updateExperience]. *)
Definition experience_fields : list string :=
  ["position"; "company"; "start_date"; "end_date"; "is_current"; "description"].

(** The experiences and the texts of their skill inputs. *)
Record experiences := {
  work_experience : list slot;
  newExpSkill : gmap nat string }.

(** What the user can do in the Work Experience section. *)
Inductive entry_event :=
  | AddClicked
  | RemoveClicked (i : nat)
  | FieldChanged (i : nat) (field : string) (value : val)
  | SkillTyped (i : nat) (text : string)
  | SkillAddPressed (i : nat)
  | SkillRemovePressed (i : nat) (skill : string).

(** One event; a handler that throws leaves no next state. *)
Definition entry_step (st : experiences) (e : entry_event) : result experiences :=
  match e with
  | AddClicked =>
      Returned {| work_experience := addExperience (work_experience st);
                  newExpSkill := newExpSkill st |}
  | RemoveClicked i =>
      Returned {| work_experience := remove_entry i (work_experience st);
                  newExpSkill := newExpSkill st |}
  | FieldChanged i field value =>
      Returned {| work_experience := updateExperience i field value (work_experience st);
                  newExpSkill := newExpSkill st |}
  | SkillTyped i text =>
      Returned {| work_experience := work_experience st;
                  newExpSkill := <[i := text]> (newExpSkill st) |}
  | SkillAddPressed i =>
      match addExpSkill i (newExpSkill st) (work_experience st) with
      | Returned (a, inputs) =>
          Returned {| work_experience := a; newExpSkill := inputs |}
      | Thrown => Thrown
      end
  | SkillRemovePressed i skill =>
      match removeExpSkill i skill (work_experience st) with
      | Returned a =>
          Returned {| work_experience := a; newExpSkill := newExpSkill st |}
      | Thrown => Thrown
      end
  end.

(** A run of events, stopped by the first handler that throws. *)
Fixpoint entry_run (st : experiences) (es : list entry_event) : result experiences :=
  match es with
  | [] => Returned st
  | e :: r =>
      match entry_step st e with
      | Returned st' => entry_run st' r
      | Thrown => Thrown
      end
  end.

(** The events the editor can raise, one after the other, while it shows
    [n] experiences: the controls of entry [i] exist only for [i < n],
    and the inputs pass one of [experience_fields]. *)
Fixpoint drawn (n : nat) (es : list entry_event) : Prop :=
  match es with
  | [] => True
  | AddClicked :: r => drawn (S n) r
  | RemoveClicked i :: r => i < n ∧ drawn (pred n) r
  | FieldChanged i field _ :: r => i < n ∧ field ∈ experience_fields ∧ drawn n r
  | SkillTyped i _ :: r => i < n ∧ drawn n r
  | SkillAddPressed i :: r => i < n ∧ drawn n r
  | SkillRemovePressed i _ :: r => i < n ∧ drawn n r
  end.

End ProfileEntries.

(** ** pages/ApplicationsPage.jsx: the page as a state machine *)

Module ApplicationsSession.
Import Js ApplicationsPage.

(** How a request settles; a failure may carry
    [err.response.data.detail]. *)
Inductive reply (A : Type) :=
  | Ok (data : A)
  | Failed (detail : option string).
Arguments Ok {A} data.
Arguments Failed {A} detail.

(** A row of [res.data]. *)
Record application := {
  app_id : string;
  job_title : string;
  company : string;
  applied_date : option string;
  app_status : string }.

Record state := {
  applications : list application;
  loading : bool;
  filter : string;
  error : option string }.

Definition initial : state :=
  {| applications := []; loading := true; filter := "all"; error := None |}.

(** The calls made through [applicationsApi]. *)
Inductive request :=
  | List (status : option string)
  | Patch (id status : string)
  | Delete (id : string).

(** [fetchApplications], run to completion against the settled request. *)
Definition fetchApplications (r : reply (list application)) (st : state) : state :=
  match r with
  | Ok data =>
      {| applications := data; loading := false; filter := filter st;
         error := error st |}
  | Failed _ =>
      {| applications := applications st; loading := false; filter := filter st;
         error := Some "Failed to load applications" |}
  end.

(** [setError(text)] *)
Definition setError (text : string) (st : state) : state :=
  {| applications := applications st; loading := loading st;
     filter := filter st; error := Some text |}.

(** What happens on the page, with the way each request it causes
    settles. *)
Inductive event :=
  | Mounted (listed : reply (list application))
  | TabClicked (tab : string) (listed : reply (list application))
  | StatusChosen (id status : string) (patched : reply ())
      (listed : reply (list application))
  | DeleteClicked (id : string) (deleted : reply ())
      (listed : reply (list application)).

(** One event: the state afterwards and the requests sent, in order.
    The effect on [filter] refetches only when the filter changes;
    [handleStatusChange] and [handleDelete] refetch after a success and
    set the error after a failure. *)
Definition step (st : state) (e : event) : state * list request :=
  match e with
  | Mounted listed =>
      (fetchApplications listed st, [List (list_params (filter st))])
  | TabClicked tab listed =>
      if String.eqb tab (filter st) then (st, [])
      else
        (fetchApplications listed
           {| applications := applications st; loading := loading st;
              filter := tab; error := error st |},
         [List (list_params tab)])
  | StatusChosen id status patched listed =>
      match patched with
      | Ok _ =>
          (fetchApplications listed st,
           [Patch id status; List (list_params (filter st))])
      | Failed detail =>
          (setError (default "Failed to update status" (detail ≫= or_null)) st,
           [Patch id status])
      end
  | DeleteClicked id deleted listed =>
      match deleted with
      | Ok _ =>
          (fetchApplications listed st,
           [Delete id; List (list_params (filter st))])
      | Failed _ => (setError "Failed to delete application" st, [Delete id])
      end
  end.

(** A run of events: the final state and all requests sent. *)
Fixpoint run (st : state) (es : list event) : state * list request :=
  match es with
  | [] => (st, [])
  | e :: r =>
      (fst (run (fst (step st e)) r),
       snd (step st e) ++ snd (run (fst (step st e)) r))
  end.

(** Events the controls of the page can raise: a tab of [STATUSES], an
    option of the status select. *)
Definition raised (e : event) : Prop :=
  match e with
  | TabClicked tab _ => tab ∈ STATUSES
  | StatusChosen _ status _ _ => status ∈ value <$> status_options
  | _ => True
  end.

(** The error banner is drawn: [{error && (...)}]. *)
Definition banner (st : state) : Prop :=
  ∃ text, error st = Some text ∧ text ≠ "".

(** The status a request names, if any. *)
Definition named_status (r : request) : option string :=
  match r with
  | List status => status
  | Patch _ status => Some status
  | Delete _ => None
  end.

End ApplicationsSession.

(** ** pages/ProfilePage.jsx: loading, saving and uploading

    The page keeps the profile the API last returned, [profile], beside
    the form. This part follows [profile] through the requests of the
    page. What a profile and the form hold beyond [profile.user_id] is
    left open, and so are the conversions [handleSave] applies to the
    form ([Number] and [new Date(..).toISOString()], functions of the
    engine): the page is taken with the three functions of [Page]. *)

Module ProfileSession.
Import Js JsMore.

Class Page (profile form payload : Type) := {
  (** [data.user_id] of a profile the API returned; [None] when the
      property is missing or [null]. *)
  user_id : profile → option string;
  (** [populateForm]. *)
  populateForm : profile → form;
  (** The object [handleSave] builds from the form before it sends
      anything (lines 76 to 90); [Thrown] when the expression throws, as
      [toISOString] does for a date that does not parse. *)
  build_payload : form → result payload }.

(** How a request settles: with [res.data], or with an error whose
    [response.data.detail], if any, is a string. *)
Inductive reply (profile : Type) :=
  | Ok (data : profile)
  | Failed (detail : option string).
Arguments Ok {profile} data.
Arguments Failed {profile} detail.

Inductive kind := success | failure.

(** The [useState] cells [profile], [loading], [form], [saving] and
    [message]. *)
Record state (profile form : Type) := {
  loaded : option profile;
  loading : bool;
  edited : form;
  saving : bool;
  message : option (kind * string) }.
Arguments loaded {profile form} s.
Arguments loading {profile form} s.
Arguments edited {profile form} s.
Arguments saving {profile form} s.
Arguments message {profile form} s.

(** [profileApi.update(userId, data)] and [profileApi.create(data)]. *)
Inductive request (payload : Type) :=
  | Update (userId : string) (data : payload)
  | Create (data : payload).
Arguments Update {payload} userId data.
Arguments Create {payload} data.

(** What happens on the page; [FormSet f] is a [setForm(f)], which is
    all that the handlers of the form's controls do to these cells. A
    request is taken together with the reply that settles it. *)
Inductive event (profile form : Type) :=
  | Mounted (r : reply profile)
  | FormSet (f : form)
  | SaveClicked (r : reply profile)
  | FileChosen (r : reply profile).
Arguments Mounted {profile form} r.
Arguments FormSet {profile form} f.
Arguments SaveClicked {profile form} r.
Arguments FileChosen {profile form} r.

Section Page.
Context `{Page profile form payload}.

(** [profile?.user_id] when it is truthy. *)
Definition saved_id (st : state profile form) : option string :=
  (loaded st ≫= user_id) ≫= or_null.

(** The effect that runs [profileApi.getCurrent()] on mount; a failure
    is swallowed. *)
Definition mounted (r : reply profile) (st : state profile form) : state profile form :=
  match r with
  | Ok data =>
      {| loaded := Some data; loading := false; edited := populateForm data;
         saving := saving st; message := message st |}
  | Failed _ =>
      {| loaded := loaded st; loading := false; edited := edited st;
         saving := saving st; message := message st |}
  end.

(** The request [handleSave] sends: the payload is built first, and
    when that throws nothing is sent. *)
Definition handleSave (st : state profile form) : option (request payload) :=
  match build_payload (edited st) with
  | Returned data =>
      Some match saved_id st with
           | Some userId => Update userId data
           | None => Create data
           end
  | Thrown => None
  end.

(** [handleSave], run to completion: the request it sends, if any, and
    the state once that request has settled with [r]. What is thrown
    while the payload is built has no [response], so that the [catch]
    shows its own text. *)
Definition save (r : reply profile) (st : state profile form)
    : option (request payload) * state profile form :=
  (handleSave st,
   match handleSave st, r with
   | None, _ =>
       {| loaded := loaded st; loading := loading st; edited := edited st;
          saving := false;
          message := Some (failure, "Failed to save profile") |}
   | Some _, Ok data =>
       {| loaded := Some data; loading := loading st; edited := edited st;
          saving := false;
          message := Some (success, "Profile saved successfully!") |}
   | Some _, Failed detail =>
       {| loaded := loaded st; loading := loading st; edited := edited st;
          saving := false;
          message :=
            Some (failure, default "Failed to save profile" (detail ≫= or_null)) |}
   end).

(** [handleUpload] for a chosen file, run to completion. *)
Definition upload (r : reply profile) (st : state profile form) : state profile form :=
  match r with
  | Ok data =>
      {| loaded := Some data; loading := loading st;
         edited := populateForm data; saving := false;
         message := Some (success, "Resume uploaded and parsed!") |}
  | Failed detail =>
      {| loaded := loaded st; loading := loading st; edited := edited st;
         saving := false;
         message := Some (failure, default "Upload failed" (detail ≫= or_null)) |}
  end.

Definition step (st : state profile form) (e : event profile form) : state profile form :=
  match e with
  | Mounted r => mounted r st
  | FormSet f =>
      {| loaded := loaded st; loading := loading st; edited := f;
         saving := saving st; message := message st |}
  | SaveClicked r => snd (save r st)
  | FileChosen r => upload r st
  end.

(** The id a reply brings, if any. *)
Definition reply_id (r : reply profile) : option string :=
  match r with
  | Ok data => user_id data ≫= or_null
  | Failed _ => None
  end.

End Page.

(** An event that brings no profile from the API: a change of the form,
    or a request that failed. *)
Definition brings_none {profile form : Type} (e : event profile form) : Prop :=
  match e with
  | Mounted (Ok _) | SaveClicked (Ok _) | FileChosen (Ok _) => False
  | _ => True
  end.

End ProfileSession.

(** ** More sample records *)

Module MoreSamples.

(** The search form with two sources ticked. *)
Definition two_sources : SearchForm.state :=
  SearchForm.toggleSource "demo" SearchForm.initial.

(** The profile form with two skills. *)
Definition skilled_form : ProfilePage.form :=
  ProfileTags.with_tags ProfileTags.skills_field ["python"; "sql"]
    ProfilePage.empty_form.

(** Presses in the Skills section. *)
Definition tag_presses : list ProfileTags.tag_event :=
  [ ProfileTags.AddPressed " rust "; ProfileTags.AddPressed "sql";
    ProfileTags.RemovePressed "python"; ProfileTags.AddPressed "   " ].

(** An experience with two skills, and an empty one. *)
Definition acme_job : gmap string ProfileEntries.val :=
  <["company" := ProfileEntries.Str "Acme"]>
    (<["end_date" := ProfileEntries.Str "2024-06-30"]>
       (<["skills" := ProfileEntries.Tags ["python"; "sql"]]>
          ProfileEntries.EMPTY_EXP)).
Definition two_jobs : list ProfileEntries.slot :=
  [ProfileEntries.Item acme_job; ProfileEntries.Item ProfileEntries.EMPTY_EXP].

(** The Work Experience section with "rust" typed for the first entry. *)
Definition editing : ProfileEntries.experiences :=
  {| ProfileEntries.work_experience := two_jobs;
     ProfileEntries.newExpSkill := {[ 0%nat := " rust " ]} |}.

(** A session in the Work Experience section. *)
Definition entry_session : list ProfileEntries.entry_event :=
  [ ProfileEntries.SkillAddPressed 0;
    ProfileEntries.FieldChanged 0 "is_current" (ProfileEntries.Bool true);
    ProfileEntries.AddClicked;
    ProfileEntries.SkillRemovePressed 0 "sql";
    ProfileEntries.RemoveClicked 1;
    ProfileEntries.SkillTyped 1 "go";
    ProfileEntries.SkillAddPressed 1 ].

(** The applications page after its first load failed. *)
Definition failed_page : ApplicationsSession.state :=
  fst (ApplicationsSession.step ApplicationsSession.initial
         (ApplicationsSession.Mounted (ApplicationsSession.Failed None))).

(** A session on the applications page. *)
Definition page_session : list ApplicationsSession.event :=
  [ ApplicationsSession.Mounted (ApplicationsSession.Ok []);
    ApplicationsSession.TabClicked "offer" (ApplicationsSession.Ok []);
    ApplicationsSession.StatusChosen "a-1" "accepted" (ApplicationsSession.Ok ())
      (ApplicationsSession.Failed None);
    ApplicationsSession.TabClicked "all" (ApplicationsSession.Ok []);
    ApplicationsSession.DeleteClicked "a-1"
      (ApplicationsSession.Failed (Some "gone")) (ApplicationsSession.Ok []) ].

(** A sample page: profiles and form as in [ProfilePage], whose form has
    no experience or education entry, so that building the payload
    cannot throw; the payload is stood for by the form it is built from. *)
#[global] Instance sample_page :
  ProfileSession.Page ProfilePage.profile ProfilePage.form ProfilePage.form :=
  {| ProfileSession.user_id := ProfilePage.user_id;
     ProfileSession.populateForm := ProfilePage.populateForm;
     ProfileSession.build_payload := JsMore.Returned |}.

(** The sample page once the API has answered its first load with a
    profile. *)
Definition saved_page : ProfileSession.state ProfilePage.profile ProfilePage.form :=
  ProfileSession.mounted (ProfileSession.Ok Samples.loaded_profile)
    {| ProfileSession.loaded := None; ProfileSession.loading := true;
       ProfileSession.edited := ProfilePage.empty_form;
       ProfileSession.saving := false; ProfileSession.message := None |}.

(** Changes of the form and a failed save. *)
Definition quiet_session : list (ProfileSession.event ProfilePage.profile ProfilePage.form) :=
  [ ProfileSession.FormSet
      (ProfilePage.step ProfilePage.empty_form (ProfilePage.LevelClicked "lead"));
    ProfileSession.SaveClicked (ProfileSession.Failed (Some "offline"));
    ProfileSession.FormSet
      (ProfilePage.step ProfilePage.empty_form (ProfilePage.SalaryMaxTyped "160000")) ].

End MoreSamples.

(** * Properties *)

(** ** [trim] *)

Module JsFacts.
Import Js.

Lemma trimStart_empty s : trimStart s = "" ↔ blank s = true.
Proof.
  induction s as [|c r IH]; simpl; [done|].
  destruct (is_white_space c); simpl; [done|]. split; discriminate.
Qed.

Lemma trimEnd_empty s : trimEnd s = "" ↔ blank s = true.
Proof.
  induction s as [|c r IH]; simpl; [done|].
  destruct (trimEnd r) eqn:E, (is_white_space c); simpl;
    rewrite <- ?IH; split; (done || discriminate).
Qed.

Lemma blank_trimStart s : blank (trimStart s) = blank s.
Proof.
  induction s as [|c r IH]; simpl; [done|].
  destruct (is_white_space c) eqn:E; simpl; [done|]. by rewrite E.
Qed.

(** A white-space-only string trims to the empty string, and no other
    does. *)
Lemma trim_empty s : trim s = "" ↔ blank s = true.
Proof. unfold trim. by rewrite trimEnd_empty, blank_trimStart. Qed.

Lemma trimEnd_idem s : trimEnd (trimEnd s) = trimEnd s.
Proof.
  induction s as [|c r IH]; simpl; [done|].
  destruct (trimEnd r) as [|c' r'] eqn:E.
  - destruct (is_white_space c) eqn:W; simpl; [done|]. by rewrite W.
  - simpl in *. by rewrite IH.
Qed.

(** The first code unit of a string survives [trimEnd] unless the whole
    string is blank. *)
Lemma trimEnd_head c r :
  is_white_space c = false → ∃ r', trimEnd (String c r) = String c r'.
Proof.
  intros W. simpl. rewrite W. destruct (trimEnd r); eauto.
Qed.

Lemma trimStart_head s :
  trimStart s = "" ∨ ∃ c r, trimStart s = String c r ∧ is_white_space c = false.
Proof.
  induction s as [|c r IH]; simpl; [by left|].
  destruct (is_white_space c) eqn:W; [done|]. right. eauto.
Qed.

Lemma trimStart_trim s : trimStart (trim s) = trim s.
Proof.
  unfold trim. destruct (trimStart_head s) as [->|(c & r & -> & W)]; [done|].
  destruct (trimEnd_head c r W) as [r' ->]. simpl. by rewrite W.
Qed.

Lemma trim_idem s : trim (trim s) = trim s.
Proof.
  unfold trim at 1. rewrite trimStart_trim. unfold trim. apply trimEnd_idem.
Qed.

Lemma or_null_Some s t : or_null s = Some t ↔ s = t ∧ t ≠ "".
Proof.
  unfold or_null. destruct (String.eqb_spec s ""); split.
  - discriminate.
  - intros [-> ?]. done.
  - intros [= <-]. done.
  - intros [-> _]. done.
Qed.

Lemma or_null_None s : or_null s = None ↔ s = "".
Proof. unfold or_null. destruct (String.eqb_spec s ""); split; done. Qed.

Example trim_both_sides : trim "  Python Developer  " = "Python Developer".
Proof. reflexivity. Qed.

Example trim_inner_space_kept : trim "a b " = "a b".
Proof. reflexivity. Qed.

Example trim_tab_newline :
  trim (String "009" (String "010" "x")) = "x".
Proof. reflexivity. Qed.

End JsFacts.

(** ** The search form *)

Module SearchFormFacts.
Import Js JsFacts SearchForm.

(** While the state holds the value of one of the options, as every
    [onChange] of the select leaves it, the option shown as selected is
    "Any Time" exactly when the state holds ["all"]. *)
Lemma any_time_selected st :
  datePosted st ∈ fst <$> date_options →
  selected_date_label st = Some "Any Time" ↔ datePosted st = "all".
Proof.
  unfold selected_date_label, date_options. simpl.
  rewrite !elem_of_cons, elem_of_nil.
  intros [->|[->|[->|[->|[->|[]]]]]]; split; (done || discriminate).
Qed.

(** The state holds the value of one of the options from the start and
    after every change of a control. *)
Lemma datePosted_is_option :
  datePosted initial ∈ fst <$> date_options
  ∧ (∀ st v, v ∈ fst <$> date_options →
       datePosted (setDatePosted v st) ∈ fst <$> date_options)
  ∧ (∀ st text, datePosted (setQuery text st) = datePosted st)
  ∧ (∀ st text, datePosted (setLocation text st) = datePosted st)
  ∧ (∀ st v, datePosted (setMinScore v st) = datePosted st)
  ∧ (∀ st source, datePosted (toggleSource source st) = datePosted st).
Proof. split; [by apply (bool_decide_unpack _)|]. by repeat split. Qed.

(** C9. In a state whose [datePosted] is the value of one of the options
    of the select, a submission with a blank (empty or white-space-only)
    query calls nothing. Every other submission calls [onSearch] once,
    with a payload whose query is the trimmed query and is not blank,
    whose location is [null] or a non-empty trimmed string, and whose
    [date_posted] is [null] exactly when "Any Time" is the selected
    option. *)
Theorem handleSubmit_payload (st : state) :
  datePosted st ∈ fst <$> date_options →
  if blank (query st) then handleSubmit st = []
  else ∃ p, handleSubmit st = [p]
    ∧ p_query p = trim (query st)
    ∧ p_query p ≠ "" ∧ trim (p_query p) ≠ ""
    ∧ (p_location p = None
       ∨ ∃ l, p_location p = Some l ∧ l ≠ "" ∧ trim l = l)
    ∧ (date_posted p = None ↔ selected_date_label st = Some "Any Time").
Proof.
  intros Hdate. unfold handleSubmit. destruct (blank (query st)) eqn:B.
  - apply trim_empty in B. by rewrite B.
  - assert (trim (query st) ≠ "") as Hq.
    { intros E. apply trim_empty in E. congruence. }
    destruct (String.eqb_spec (trim (query st)) ""); [done|].
    eexists. split; [reflexivity|]. simpl.
    split; [done|]. split; [done|]. split; [by rewrite trim_idem|]. split.
    + destruct (or_null (trim (location st))) as [l|] eqn:E; [right|by left].
      apply or_null_Some in E as [<- ?]. exists (trim (location st)).
      by rewrite trim_idem.
    + rewrite (any_time_selected st Hdate).
      destruct (String.eqb_spec (datePosted st) "all"); simpl; split;
        (done || discriminate).
Qed.

(** The submit button is disabled in the same states in which
    [handleSubmit] would call nothing. *)
Lemma submit_disabled_blank st :
  submit_disabled false st = true ↔ handleSubmit st = [].
Proof.
  unfold submit_disabled, handleSubmit. simpl.
  destruct (String.eqb (trim (query st)) ""); split; (done || discriminate).
Qed.

Example handleSubmit_spaces :
  handleSubmit
    {| query := "   "; location := ""; sources := ["jsearch"]; minScore := 0.3;
       experienceLevel := ""; employmentType := ""; datePosted := "week";
       remoteOnly := false |} = [].
Proof. reflexivity. Qed.

Example handleSubmit_python :
  handleSubmit
    {| query := " Python Developer "; location := "  "; sources := ["jsearch"];
       minScore := 0.3; experienceLevel := ""; employmentType := "";
       datePosted := "all"; remoteOnly := true |}
  = [ {| p_query := "Python Developer"; p_location := None;
         p_sources := ["jsearch"]; min_score := 0.3;
         experience_level := None; employment_type := None;
         date_posted := None; remote_only := true |} ].
Proof. reflexivity. Qed.

End SearchFormFacts.

(** ** The status badge and the applications page *)

Module StatusFacts.
Import Js StatusBadge ApplicationsPage.

(** The own keys of the style table are the statuses the page offers. *)
Lemma styled_iff_valid s : is_Some (statusStyles !! s) ↔ s ∈ VALID_STATUSES.
Proof.
  unfold statusStyles, VALID_STATUSES. split.
  - intros [v Hv]. apply elem_of_list_to_map_2 in Hv.
    apply (list_elem_of_fmap_2 fst) in Hv. exact Hv.
  - intros H. rewrite !elem_of_cons, elem_of_nil in H.
    destruct H as [->|[->|[->|[->|[->|[->|[]]]]]]]; by eexists.
Qed.

(** A status with an entry keeps the style of its entry. *)
Lemma style_own s v : statusStyles !! s = Some v → v ≠ "" → style s = VString v.
Proof.
  intros H Hv. unfold style, get, or. rewrite H. simpl.
  by destruct (String.eqb_spec v "").
Qed.

(** A status that is neither a key of the table nor the name of a
    property inherited from [Object.prototype] gets the pending style. *)
Lemma style_fallback s :
  statusStyles !! s = None → ObjectPrototype !! s = None →
  style s = VString pending_style.
Proof. intros H1 H2. unfold style, get, or. rewrite H1, H2. reflexivity. Qed.

Example style_applied : style "applied" = VString pending_style.
Proof. reflexivity. Qed.

(** C10. The badge renders for the status ["constructor"], which has no
    entry in the style table, but not with the pending style: the lookup
    finds the inherited [Object.prototype.constructor], a truthy value,
    and the fallback is not taken. *)
Theorem StatusBadge_constructor :
  statusStyles !! "constructor" = None
  ∧ style "constructor" = VFunction "Object"
  ∧ style "constructor" ≠ VString pending_style
  ∧ StatusBadge "constructor"
    = {| className :=
           "inline-block px-3 py-1 rounded-full text-xs font-medium capitalize function Object() { [native code] }";
         children := "constructor" |}
  ∧ StatusBadge "constructor"
    ≠ {| className := className (StatusBadge "pending"); children := "constructor" |}.
Proof. repeat split; try reflexivity; discriminate. Qed.

(** C2, as stated, fails: [applied] is not among the statuses the
    status [<select>] offers. *)
Lemma applied_not_offered :
  ¬ Forall (λ s, s ∈ value <$> status_options) design_statuses.
Proof.
  intros H. apply Forall_cons_1 in H as [_ H]. apply Forall_cons_1 in H as [H _].
  simpl in H. rewrite !elem_of_cons, elem_of_nil in H.
  destruct H as [?|[?|[?|[?|[?|[?|[]]]]]]]; discriminate.
Qed.

(** C2, amended. The status [<select>] of an application offers exactly
    the six statuses pending, interview, offer, accepted, rejected and
    withdrawn, and sends the chosen one unchanged; the same six are the
    keys of the badge's style table and, after ["all"], the filter tabs;
    [applied] is not among them. *)
Theorem status_select_offers_six (applicationId s : string) :
  (handleStatusChange applicationId s ∈ status_updates applicationId
   ↔ s ∈ ["pending"; "interview"; "offer"; "accepted"; "rejected"; "withdrawn"])
  ∧ (s ∈ value <$> status_options ↔ is_Some (statusStyles !! s))
  ∧ STATUSES = "all" :: (value <$> status_options)
  ∧ "applied" ∉ value <$> status_options.
Proof.
  split; [|split; [|split]].
  - unfold status_updates, status_options. rewrite <- list_fmap_compose.
    rewrite list_elem_of_fmap. unfold VALID_STATUSES. split.
    + intros (y & E & Hy). unfold compose, handleStatusChange in E. simpl in E.
      by injection E as ->.
    + intros H. by exists s.
  - rewrite styled_iff_valid. unfold status_options.
    rewrite <- list_fmap_compose. by rewrite list_fmap_id.
  - reflexivity.
  - simpl. rewrite !elem_of_cons, elem_of_nil.
    intros [?|[?|[?|[?|[?|[?|[]]]]]]]; discriminate.
Qed.

End StatusFacts.

(** ** The search page *)

Module JobSearchFacts.
Import Schema JobSearchPage.

Lemma render_matches_list ms :
  ∃ l, render_matches (FMatches ms) = Rendered l
       ∧ shown l = ms ∧ keys l = (λ m, job_id (job m)) <$> ms.
Proof.
  destruct ms as [|m ms]; simpl.
  - by exists NoMatches.
  - eexists. split; [reflexivity|]. simpl. split.
    + f_equal. rewrite <- list_fmap_compose. apply list_fmap_id.
    + f_equal. by rewrite <- list_fmap_compose.
Qed.

(** The page reads no property of the response but the three. *)
Lemma render_results_reads_three (data : gmap string field) k v st :
  k ∉ ["matches"; "total_fetched"; "total_matched"] →
  render_results (handleSearch (Resolved (<[k:=v]> data)) st)
  = render_results (handleSearch (Resolved data) st).
Proof.
  intros Hk. rewrite !not_elem_of_cons in Hk. destruct Hk as (?&?&?&_).
  unfold render_results, prop. simpl. by rewrite !lookup_insert_ne.
Qed.

(** C1. After a search that completed with a response carrying
    [matches], [total_fetched] and [total_matched], the page shows the
    two totals and one card per match, in the order of the response and
    keyed by job id; no other property of the response changes what it
    shows. *)
Theorem search_results_rendered (data : gmap string field)
    (ms : list JobMatch) (fetched matched : Z) (st : state) :
  data !! "matches" = Some (FMatches ms) →
  data !! "total_fetched" = Some (FNumber fetched) →
  data !! "total_matched" = Some (FNumber matched) →
  (∃ l,
     render_results (handleSearch (Resolved data) st)
     = Rendered (Some {| total_fetched := FNumber fetched;
                         total_matched := FNumber matched;
                         matches := l |})
     ∧ shown l = ms
     ∧ keys l = (λ m, job_id (job m)) <$> ms)
  ∧ ∀ k v, k ∉ ["matches"; "total_fetched"; "total_matched"] →
      render_results (handleSearch (Resolved (<[k:=v]> data)) st)
      = render_results (handleSearch (Resolved data) st).
Proof.
  intros Hm Hf Ht. split; [|intros; by apply render_results_reads_three].
  destruct (render_matches_list ms) as (l & Hl & Hs & Hk).
  exists l. unfold render_results, prop. cbn -[render_matches].
  rewrite Hm, Hf, Ht. cbn -[render_matches]. by rewrite Hl.
Qed.

(** A response without [matches] makes the page throw. *)
Lemma render_results_no_matches (data : gmap string field) st :
  data !! "matches" = None →
  render_results (handleSearch (Resolved data) st) = Throws.
Proof.
  intros H. unfold render_results. cbn [handleSearch results].
  replace (prop data "matches") with FUndefined by (unfold prop; by rewrite H).
  by destruct (render_child (prop data "total_fetched")),
    (render_child (prop data "total_matched")).
Qed.

End JobSearchFacts.

(** ** The profile editor *)

Module ProfileFacts.
Import Js JsFacts ProfilePage.

(** *** Remote preference *)

Lemma string_or_in (x : option string) fallback (l : list string) :
  fallback ∈ l → from_option (λ v, v ∈ l) True x → string_or x fallback ∈ l.
Proof.
  intros Hf Hx. unfold string_or. destruct x as [v|]; simpl; [|done].
  unfold or_null. by destruct (String.eqb v "").
Qed.

Lemma step_remote_typed f e :
  remote_typed e → remote_preference f ∈ remote_options →
  remote_preference (step f e) ∈ remote_options.
Proof.
  destruct e as [data|v|level|t|t]; simpl; intros He Hf; try done.
  - apply string_or_in; [by apply (bool_decide_unpack _)|].
    by destruct (d_remote_preference data).
  - unfold level_onChange. by destruct (negb _).
Qed.

(** C7. The Remote Preference select offers exactly the values required,
    preferred, flexible and not_interested; loading a profile without a
    value puts flexible in the form, loading one with a value keeps it;
    and through any sequence of editor events that respect the types,
    the form's [remote_preference] is one of the four. *)
Theorem remote_preference_enum (es : list event) :
  Forall remote_typed es →
  remote_options = ["required"; "preferred"; "flexible"; "not_interested"]
  ∧ (∀ data,
       d_remote_preference data = None ∨ d_remote_preference data = Some "" →
       remote_preference (populateForm data) = "flexible")
  ∧ (∀ data v, d_remote_preference data = Some v → v ∈ remote_options →
       remote_preference (populateForm data) = v)
  ∧ remote_preference (run empty_form es) ∈ remote_options.
Proof.
  intros Hes. split; [done|]. split; [|split].
  - intros data [H|H]; simpl; by rewrite H.
  - intros data v H Hv. simpl. rewrite H. unfold string_or. simpl.
    rewrite (proj2 (or_null_Some v v)); [done|]. split; [done|].
    intros ->. revert Hv. by apply (bool_decide_eq_false_1 _).
  - unfold run. assert (remote_preference empty_form ∈ remote_options) as H0
      by (by apply (bool_decide_unpack _)).
    revert H0. generalize empty_form.
    induction Hes as [|e es He _ IH]; intros f Hf; simpl; [done|].
    apply IH. by apply step_remote_typed.
Qed.

(** *** Job levels *)

Lemma level_click_unchecked f level :
  level ∉ preferred_job_levels f →
  preferred_job_levels (step f (LevelClicked level))
  = preferred_job_levels f ++ [level].
Proof.
  intros H. simpl. unfold level_checked. by rewrite bool_decide_eq_false_2.
Qed.

Lemma level_click_checked f level :
  level ∈ preferred_job_levels f →
  preferred_job_levels (step f (LevelClicked level))
  = filter (λ l, l ≠ level) (preferred_job_levels f).
Proof.
  intros H. simpl. unfold level_checked. by rewrite bool_decide_eq_true_2.
Qed.

Lemma step_levels_typed f e :
  levels_typed e →
  NoDup (preferred_job_levels f) ∧ preferred_job_levels f ⊆ job_levels →
  NoDup (preferred_job_levels (step f e))
  ∧ preferred_job_levels (step f e) ⊆ job_levels.
Proof.
  destruct e as [data|v|level|t|t]; intros He [Hnd Hsub]; try done.
  - simpl in *. destruct (d_preferred_job_levels data); simpl; [done|].
    split; [constructor|]. by intros x Hx%elem_of_nil.
  - simpl in He. destruct (decide (level ∈ preferred_job_levels f)) as [Hin|Hin].
    + rewrite level_click_checked by done. split.
      * by apply NoDup_filter.
      * intros x Hx. apply list_elem_of_filter in Hx as [_ Hx]. by apply Hsub.
    + rewrite level_click_unchecked by done. split.
      * apply NoDup_app. split; [done|]. split; [|apply NoDup_singleton].
        intros x Hx Hx'. apply list_elem_of_singleton in Hx'. by subst.
      * intros x Hx. apply elem_of_app in Hx as [Hx|Hx]; [by apply Hsub|].
        apply list_elem_of_singleton in Hx. by subst.
Qed.

(** C8. Starting from a duplicate-free list of levels among the six,
    every sequence of editor events that respect the types leaves
    [preferred_job_levels] a duplicate-free list of levels among the
    six: a click on the checkbox of a level that is absent appends it,
    and a click on the checkbox of a level that is present removes every
    occurrence of it. *)
Theorem preferred_job_levels_invariant (f : form) (es : list event) :
  NoDup (preferred_job_levels f) →
  preferred_job_levels f ⊆ job_levels →
  Forall levels_typed es →
  (NoDup (preferred_job_levels (run f es))
   ∧ preferred_job_levels (run f es) ⊆ job_levels)
  ∧ (∀ g level, level ∉ preferred_job_levels g →
       preferred_job_levels (step g (LevelClicked level))
       = preferred_job_levels g ++ [level])
  ∧ (∀ g level, level ∈ preferred_job_levels g →
       preferred_job_levels (step g (LevelClicked level))
       = filter (λ l, l ≠ level) (preferred_job_levels g)
       ∧ level ∉ preferred_job_levels (step g (LevelClicked level))).
Proof.
  intros Hnd Hsub Hes. split; [|split].
  - unfold run. revert f Hnd Hsub.
    induction Hes as [|e es He _ IH]; intros f Hnd Hsub; simpl; [done|].
    destruct (step_levels_typed f e He (conj Hnd Hsub)) as [? ?]. by apply IH.
  - apply level_click_unchecked.
  - intros g level H. rewrite level_click_checked by done. split; [done|].
    rewrite list_elem_of_filter. by intros [? _].
Qed.

(** The handler itself does not look at the list: fed [checked = true]
    for a level already present, which no click on the controlled
    checkbox produces, it would append a second copy. *)
Example level_onChange_unguarded :
  preferred_job_levels
    (level_onChange "mid" true (update_preferred_job_levels ["mid"] empty_form))
  = ["mid"; "mid"].
Proof. reflexivity. Qed.

End ProfileFacts.

(** ** Aggregation *)

Module AggregatorFacts.
Import Schema Pipeline.
Local Open Scope Q_scope.

Section Aggregation.
Variables (w : Dimension → Q) (s : Dimension → option Q).
Hypothesis weights_nonneg : ∀ d, 0 <= w d.
Hypothesis scores_in_range : ∀ d x, s d = Some x → 0 <= x <= 1.

Lemma add_dimension_weighted t d :
  weighted (add_dimension w s t d) == weighted t + share w s d.
Proof. unfold add_dimension, share. destruct (s d); simpl; ring. Qed.

Lemma add_dimension_weight t d :
  weight (add_dimension w s t d) == weight t + counted w s d.
Proof. unfold add_dimension, counted. destruct (s d); simpl; ring. Qed.

(** The loop computes the two sums of the spec. *)
Lemma tally_sums :
  let t := foldl (add_dimension w s) {| weighted := 0; weight := 0 |} dimensions in
  weighted t == weighted_sum w s ∧ weight t == weight_sum w s.
Proof.
  unfold dimensions, weighted_sum, weight_sum. cbn [foldl]. split.
  - rewrite !add_dimension_weighted. simpl. ring.
  - rewrite !add_dimension_weight. simpl. ring.
Qed.

Lemma share_bounds d : 0 <= share w s d <= counted w s d.
Proof.
  unfold share, counted. destruct (s d) as [x|] eqn:E; [|lra].
  pose proof (scores_in_range d x E). pose proof (weights_nonneg d). nra.
Qed.

Lemma weighted_sum_bounds : 0 <= weighted_sum w s <= weight_sum w s.
Proof.
  unfold weighted_sum, weight_sum.
  pose proof (share_bounds Skills). pose proof (share_bounds Experience).
  pose proof (share_bounds Place). pose proof (share_bounds Salary).
  pose proof (share_bounds Level). lra.
Qed.

Lemma counted_le_weight_sum d : counted w s d <= weight_sum w s.
Proof.
  unfold weight_sum.
  pose proof (share_bounds Skills). pose proof (share_bounds Experience).
  pose proof (share_bounds Place). pose proof (share_bounds Salary).
  pose proof (share_bounds Level). destruct d; lra.
Qed.

Lemma weight_sum_pos d x : s d = Some x → 0 < w d → 0 < weight_sum w s.
Proof.
  intros E Hd. pose proof (counted_le_weight_sum d) as H.
  unfold counted in H. rewrite E in H. lra.
Qed.

Lemma overall_defined d x :
  s d = Some x → 0 < w d →
  ∃ o, overall w s = Some o ∧ o == weighted_sum w s / weight_sum w s.
Proof.
  intros E Hd. pose proof (weight_sum_pos d x E Hd) as Hpos.
  destruct tally_sums as [Hn Hw]. unfold overall.
  destruct (Qeq_bool _ 0) eqn:B.
  - apply Qeq_bool_eq in B. rewrite Hw in B. lra.
  - eexists. split; [reflexivity|]. by rewrite Hn, Hw.
Qed.

Lemma ratio_bounds : 0 < weight_sum w s →
  0 <= weighted_sum w s / weight_sum w s <= 1.
Proof.
  intros Hpos. pose proof weighted_sum_bounds as [H0 H1]. split.
  - apply Qle_shift_div_l; [done|]. lra.
  - apply Qle_shift_div_r; [done|]. lra.
Qed.
End Aggregation.

(** Weights of dimensions that were not computable do not enter the
    sums. *)
Lemma sums_ignore_uncomputable (w w' : Dimension → Q) s :
  (∀ d, is_Some (s d) → w' d == w d) →
  weighted_sum w' s == weighted_sum w s ∧ weight_sum w' s == weight_sum w s.
Proof.
  intros H.
  assert (∀ d, share w' s d == share w s d ∧ counted w' s d == counted w s d) as Hd.
  { intros d. unfold share, counted. specialize (H d).
    destruct (s d); [|done]. rewrite H by eauto. done. }
  unfold weighted_sum, weight_sum.
  destruct (Hd Skills) as [-> ->], (Hd Experience) as [-> ->],
    (Hd Place) as [-> ->], (Hd Salary) as [-> ->], (Hd Level) as [-> ->].
  done.
Qed.

(** A positive sum of counted weights comes from some computable
    dimension of positive weight. *)
Lemma weight_sum_pos_inv (w : Dimension → Q) s :
  0 < weight_sum w s → ∃ d x, s d = Some x ∧ 0 < w d.
Proof.
  intros H.
  assert (∀ d, 0 < counted w s d → ∃ d x, s d = Some x ∧ 0 < w d) as Hc.
  { intros d. unfold counted. destruct (s d) as [x|] eqn:E; [by eauto|lra]. }
  destruct (Qlt_le_dec 0 (counted w s Skills)); [by eauto|].
  destruct (Qlt_le_dec 0 (counted w s Experience)); [by eauto|].
  destruct (Qlt_le_dec 0 (counted w s Place)); [by eauto|].
  destruct (Qlt_le_dec 0 (counted w s Salary)); [by eauto|].
  destruct (Qlt_le_dec 0 (counted w s Level)); [by eauto|].
  unfold weight_sum in H. lra.
Qed.

Lemma overall_Some_pos (w : Dimension → Q) s o :
  (∀ d, 0 <= w d) → (∀ d x, s d = Some x → 0 <= x <= 1) →
  overall w s = Some o → 0 < weight_sum w s.
Proof.
  intros Hw Hs. destruct (tally_sums w s) as [_ Hsum]. unfold overall.
  destruct (Qeq_bool _ 0) eqn:B; [done|]. intros _.
  apply Qeq_bool_neq in B. rewrite Hsum in B.
  pose proof (weighted_sum_bounds w s Hw Hs). lra.
Qed.

(** C4. With non-negative weights and dimension scores in [0,1],
    aggregation returns a score exactly when some computable dimension
    has a positive weight; the [overall_score] of every score it
    returns lies in [0,1] and is the weighted sum of the computable
    dimension scores divided by the sum of their weights; the score
    carries the dimension scores unchanged, and the weight given to a
    dimension that was not computable has no influence on it. *)
Theorem aggregate_overall_score (w : Dimension → Q) (s : Dimension → option Q)
    (matching missing : list string) :
  (∀ d, 0 <= w d) →
  (∀ d x, s d = Some x → 0 <= x <= 1) →
  (is_Some (aggregate w s matching missing) ↔ ∃ d x, s d = Some x ∧ 0 < w d)
  ∧ ∀ r, aggregate w s matching missing = Some r →
      0 <= overall_score r <= 1
      ∧ overall_score r == weighted_sum w s / weight_sum w s
      ∧ (skills_score r, experience_score r, location_score r,
         salary_score r, level_score r)
        = (s Skills, s Experience, s Place, s Salary, s Level)
      ∧ ∀ w', (∀ d, 0 <= w' d) → (∀ d, is_Some (s d) → w' d == w d) →
          ∃ r', aggregate w' s matching missing = Some r'
                ∧ overall_score r' == overall_score r.
Proof.
  intros Hw Hs. split.
  - split.
    + intros [r Hr]. unfold aggregate in Hr.
      destruct (overall w s) as [o|] eqn:Ho; [|done].
      apply weight_sum_pos_inv. by eapply overall_Some_pos.
    + intros (d & x & E & Hd).
      destruct (overall_defined w s Hw Hs d x E Hd) as (o & Ho & _).
      unfold aggregate. rewrite Ho. by eexists.
  - intros r Hr. unfold aggregate in Hr.
    destruct (overall w s) as [o|] eqn:Ho; [|done].
    pose proof (overall_Some_pos w s o Hw Hs Ho) as Hpos.
    destruct (weight_sum_pos_inv w s Hpos) as (d & x & E & Hd).
    destruct (overall_defined w s Hw Hs d x E Hd) as (o1 & Ho1 & Hq).
    assert (o1 = o) as -> by congruence.
    simpl in Hr. injection Hr as <-. simpl.
    split; [rewrite Hq; by apply ratio_bounds|]. split; [done|]. split; [done|].
    intros w' Hw' Hsame.
    assert (0 < w' d) as Hd' by (rewrite Hsame by eauto; done).
    destruct (overall_defined w' s Hw' Hs d x E Hd') as (o' & Ho' & Hq').
    unfold aggregate. rewrite Ho'. simpl. eexists. split; [reflexivity|]. simpl.
    destruct (sums_ignore_uncomputable w w' s Hsame) as [Hn Hm].
    by rewrite Hq, Hq', Hn, Hm.
Qed.

(** An uncomputable dimension is left out, not counted as zero: skills
    at 1 with weight 1 and no salary data, salary weighted 1, gives 1
    and not 1/2. *)
Example aggregate_skips_salary :
  overall (λ _, 1) (λ d, match d with Skills => Some 1 | _ => None end)
  = Some (1 / 1).
Proof. reflexivity. Qed.

End AggregatorFacts.

(** ** The minimum-score filter *)

Module MinScoreFacts.
Import Schema Js JsFacts SearchForm Pipeline Samples.
Local Open Scope Q_scope.

Lemma below_false t m : below t m = false ↔ t <= overall_score (score m).
Proof.
  unfold below. rewrite <- Qle_bool_iff. destruct (Qle_bool _ _); split; (done || discriminate).
Qed.

(** The survivors are the matches at or above the threshold. *)
Lemma min_score_survivors t ms m :
  m ∈ surviving_jobs (min_score_filter t ms) ↔ m ∈ ms ∧ t <= overall_score (score m).
Proof. simpl. by rewrite list_elem_of_filter, below_false, (comm and). Qed.

(** With threshold 0 the filter drops nothing, scores being non-negative. *)
Lemma min_score_filter_zero ms :
  Forall (λ m, 0 <= overall_score (score m)) ms →
  min_score_filter 0 ms = {| surviving_jobs := ms; excluded := [] |}.
Proof.
  intros H. unfold min_score_filter. f_equal.
  - induction H as [|m ms Hm _ IH]; [done|].
    rewrite filter_cons_True by by apply below_false. by rewrite IH.
  - induction H as [|m ms Hm _ IH]; [done|].
    rewrite filter_cons_False; [done|]. apply below_false in Hm. congruence.
Qed.

(** Every submission carries the slider's value as [min_score]. *)
Lemma handleSubmit_min_score st :
  blank (query st) = false →
  ∃ p, handleSubmit st = [p] ∧ min_score p = minScore st.
Proof.
  intros B. unfold handleSubmit.
  destruct (String.eqb_spec (trim (query st)) "") as [E|_].
  - apply trim_empty in E. congruence.
  - eexists. split; reflexivity.
Qed.

(** C5. The threshold of the minimum-score filter is 0 when none is
    configured, and at that threshold the filter excludes no job, scores
    being non-negative: it returns the jobs it was given, in their order,
    and rejects none. A threshold that is configured decides alone which
    jobs survive: those scoring at least as much. *)
Theorem min_score_default_noop (ms : list JobMatch) :
  Forall (λ m, 0 <= overall_score (score m)) ms →
  default_threshold == 0
  ∧ min_score_filter default_threshold ms = {| surviving_jobs := ms; excluded := [] |}
  ∧ ∀ t m, m ∈ surviving_jobs (min_score_filter t ms)
           ↔ m ∈ ms ∧ t <= overall_score (score m).
Proof.
  intros Hms. split; [done|]. split; [by apply min_score_filter_zero|].
  intros t m. apply min_score_survivors.
Qed.

End MinScoreFacts.

(** ** The ranker *)

Module RankerFacts.
Import Schema Pipeline Samples.
Local Open Scope Q_scope.

Implicit Types a b c : JobMatch.

Lemma posted_compare_antisym x y :
  posted_compare y x = CompOpp (posted_compare x y).
Proof. destruct x, y; simpl; [apply Z.compare_antisym|done..]. Qed.

Lemma posted_compare_eq x y : posted_compare x y = Eq ↔ x = y.
Proof.
  destruct x, y; simpl; [|split; done..].
  rewrite Z.compare_eq_iff. split; congruence.
Qed.

Lemma posted_compare_gt_trans x y z :
  posted_compare x y = Gt → posted_compare y z = Gt → posted_compare x z = Gt.
Proof.
  destruct x, y, z; simpl; try done. rewrite !Z.compare_gt_iff. lia.
Qed.

(** The sort key, spelled out. *)
Lemma outranks_spec a b :
  outranks a b ↔
    overall_of b < overall_of a
    ∨ (overall_of a == overall_of b
       ∧ (posted_compare (posted_of a) (posted_of b) = Gt
          ∨ (posted_of a = posted_of b ∧ String.leb (id_of a) (id_of b) = true))).
Proof.
  unfold outranks, outranksb, overall_of, posted_of, id_of.
  destruct (Qcompare _ _) eqn:Q.
  - apply Qeq_alt in Q.
    destruct (posted_compare _ _) eqn:P.
    + apply posted_compare_eq in P. split; [by auto|].
      intros [H|(_ & [H|[_ H]])]; [lra|done..].
    + assert (posted_at (job a) ≠ posted_at (job b)) as Hne.
      { intros E. apply posted_compare_eq in E. congruence. }
      split; [done|]. intros [H|(_ & [H|[H _]])]; [lra|done..].
    + split; auto.
  - apply Qlt_alt in Q. split; [done|]. intros [H|[H _]]; lra.
  - apply Qgt_alt in Q. split; auto.
Qed.

#[local] Instance outranks_total : Total outranks.
Proof.
  intros a b. unfold outranks, outranksb.
  rewrite <- (Qcompare_antisym (overall_score (score a))).
  rewrite (posted_compare_antisym (posted_at (job a))).
  destruct (Qcompare _ _); simpl; auto.
  destruct (posted_compare _ _); simpl; auto.
  apply String.leb_total.
Qed.

Lemma string_leb_trans (x y z : string) :
  String.leb x y = true → String.leb y z = true → String.leb x z = true.
Proof.
  intros H1%Is_true_true H2%Is_true_true. apply Is_true_true.
  change (String.le x z). by transitivity y.
Qed.

#[local] Instance outranks_trans : Transitive outranks.
Proof.
  intros a b c. rewrite !outranks_spec.
  intros [H1|(E1 & H1)] [H2|(E2 & H2)].
  - left. lra.
  - left. lra.
  - left. lra.
  - right. split; [lra|].
    destruct H1 as [H1|[P1 L1]], H2 as [H2|[P2 L2]].
    + left. by eapply posted_compare_gt_trans.
    + left. by rewrite <- P2.
    + left. by rewrite P1.
    + right. split; [congruence|]. by eapply string_leb_trans.
Qed.

(** Two matches that outrank each other carry the same job id. *)
Lemma outranks_antisym_id a b : outranks a b → outranks b a → id_of a = id_of b.
Proof.
  rewrite !outranks_spec. intros [H1|(E1 & H1)] [H2|(E2 & H2)]; try lra.
  destruct H1 as [H1|[P1 L1]], H2 as [H2|[P2 L2]].
  - rewrite posted_compare_antisym, H1 in H2. discriminate.
  - rewrite P2 in H1. by rewrite (proj2 (posted_compare_eq _ _)) in H1.
  - rewrite P1 in H2. by rewrite (proj2 (posted_compare_eq _ _)) in H2.
  - by apply String.leb_antisym.
Qed.

Lemma NoDup_fmap_eq {A B} (f : A → B) (l : list A) x y :
  NoDup (f <$> l) → x ∈ l → y ∈ l → f x = f y → x = y.
Proof.
  intros Hnd Hx Hy E.
  apply list_elem_of_lookup in Hx as [i Hi], Hy as [j Hj].
  assert (i = j) as ->; [|congruence].
  apply (NoDup_lookup (f <$> l) i j (f x) Hnd); rewrite list_lookup_fmap.
  - by rewrite Hi.
  - by rewrite Hj, E.
Qed.

Lemma StronglySorted_lookup {A} (R : relation A) l i j x y :
  StronglySorted R l → (i < j)%nat → l !! i = Some x → l !! j = Some y → R x y.
Proof.
  intros Hl. revert i j. induction Hl as [|z l _ IH Hz]; intros i j Hij Hi Hj.
  - done.
  - destruct j as [|j]; [lia|]. simpl in Hj. destruct i as [|i].
    + injection Hi as <-. rewrite Forall_forall in Hz. apply Hz.
      by eapply list_elem_of_lookup_2.
    + simpl in Hi. eapply (IH i j); [lia|done..].
Qed.

(** The sorted list does not depend on the order in which the survivors
    arrive, as long as job ids are distinct. *)
Lemma merge_sort_deterministic (l1 l2 : list JobMatch) :
  NoDup (id_of <$> l1) → l1 ≡ₚ l2 →
  merge_sort outranks l1 = merge_sort outranks l2.
Proof.
  intros Hnd Hp. apply (StronglySorted_unique_strong outranks).
  - intros x y Hx Hy Hxy Hyx.
    rewrite merge_sort_Permutation in Hx. rewrite merge_sort_Permutation, <- Hp in Hy.
    apply (NoDup_fmap_eq id_of l1); [done..|]. by apply outranks_antisym_id.
  - apply StronglySorted_merge_sort; apply _.
  - apply StronglySorted_merge_sort; apply _.
  - by rewrite !merge_sort_Permutation.
Qed.

(** C3. The ranking of survivors with distinct job ids is the first
    [max_results] of a rearrangement of the survivors in which every
    match scores at least as high as those after it, among equal scores
    the one posted later comes first, and among equal scores and equal
    [posted_at] the job ids ascend; what is cut off ranks no better than
    what is kept, and the result is the same for every order in which
    the survivors arrive. *)
Theorem rank_order (max_results : nat) (survivors : list JobMatch) :
  NoDup (id_of <$> survivors) →
  (∃ rest, rank max_results survivors ++ rest ≡ₚ survivors
           ∧ ∀ a b, a ∈ rank max_results survivors → b ∈ rest → outranks a b)
  ∧ length (rank max_results survivors) = min max_results (length survivors)
  ∧ (∀ i j a b, (i < j)%nat →
       rank max_results survivors !! i = Some a →
       rank max_results survivors !! j = Some b →
       overall_of b <= overall_of a
       ∧ (overall_of a == overall_of b →
          posted_compare (posted_of a) (posted_of b) ≠ Lt
          ∧ (posted_of a = posted_of b →
             String.ltb (id_of a) (id_of b) = true)))
  ∧ (∀ arrival, arrival ≡ₚ survivors →
       rank max_results arrival = rank max_results survivors).
Proof.
  intros Hnd. unfold rank.
  pose proof (StronglySorted_merge_sort outranks survivors) as Hs.
  pose proof (merge_sort_Permutation outranks survivors) as Hp.
  set (sorted := merge_sort outranks survivors) in *.
  split; [|split; [|split]].
  - exists (drop max_results sorted). rewrite take_drop. split; [done|].
    intros a b Ha Hb. eapply StronglySorted_app_1_elem_of; [|done..].
    by rewrite take_drop.
  - by rewrite length_take, Hp.
  - intros i j a b Hij [Hi _]%lookup_take_Some [Hj _]%lookup_take_Some.
    pose proof (StronglySorted_lookup outranks sorted i j a b Hs Hij Hi Hj) as Hab.
    assert (id_of a ≠ id_of b) as Hne.
    { intros E. assert (i = j); [|lia].
      apply (NoDup_lookup (id_of <$> sorted) i j (id_of a)).
      - by rewrite Hp.
      - by rewrite list_lookup_fmap, Hi.
      - by rewrite list_lookup_fmap, Hj, E. }
    apply outranks_spec in Hab. destruct Hab as [Hlt|(Heq & Hrest)].
    + split; [lra|]. intros E. lra.
    + split; [lra|]. intros _. destruct Hrest as [Hgt|[Hpe Hle]].
      * split; [congruence|]. intros E.
        apply posted_compare_eq in E. congruence.
      * split; [apply posted_compare_eq in Hpe; congruence|]. intros _.
        unfold String.ltb. unfold String.leb in Hle.
        destruct (String.compare (id_of a) (id_of b)) eqn:C; try done.
        by apply String.compare_eq_iff in C.
  - intros arrival Harr. f_equal. apply merge_sort_deterministic.
    + by rewrite Harr.
    + done.
Qed.

(** Two matches with the same score and the same [posted_at] come out
    in ascending order of job id whichever way they arrive. *)
Example rank_tie :
  let a := sample_match "job-a" (Some 20260101%Z) 0.5 in
  let b := sample_match "job-b" (Some 20260101%Z) (1 # 2) in
  rank 10 [a; b] = [a; b] ∧ rank 10 [b; a] = [a; b].
Proof. split; reflexivity. Qed.

Example rank_truncates :
  let a := sample_match "job-a" (Some 5%Z) 0.5 in
  let b := sample_match "job-b" (Some 9%Z) 0.5 in
  let c := sample_match "job-c" None 0.9 in
  rank 2 [a; b; c] = [c; b].
Proof. reflexivity. Qed.

End RankerFacts.

(** ** The statements above at the sample records *)

Module Witnesses.
Import Schema Samples.

Lemma search_results_rendered_witness :
  response2 !! "matches"
  = Some (JobSearchPage.FMatches
            [ sample_match "job-c" None 0.9;
              sample_match "job-a" (Some 20260101%Z) 0.5 ])
  ∧ response2 !! "total_fetched" = Some (JobSearchPage.FNumber 7)
  ∧ response2 !! "total_matched" = Some (JobSearchPage.FNumber 2)
  ∧ ((∃ l,
        JobSearchPage.render_results
          (JobSearchPage.handleSearch (JobSearchPage.Resolved response2)
             JobSearchPage.initial)
        = JobSearchPage.Rendered
            (Some {| JobSearchPage.total_fetched := JobSearchPage.FNumber 7;
                     JobSearchPage.total_matched := JobSearchPage.FNumber 2;
                     JobSearchPage.matches := l |})
        ∧ JobSearchPage.shown l
          = [ sample_match "job-c" None 0.9;
              sample_match "job-a" (Some 20260101%Z) 0.5 ]
        ∧ JobSearchPage.keys l
          = (λ m, job_id (job m))
            <$> [ sample_match "job-c" None 0.9;
                  sample_match "job-a" (Some 20260101%Z) 0.5 ])
     ∧ ∀ k v, k ∉ ["matches"; "total_fetched"; "total_matched"] →
         JobSearchPage.render_results
           (JobSearchPage.handleSearch
              (JobSearchPage.Resolved (<[k:=v]> response2)) JobSearchPage.initial)
         = JobSearchPage.render_results
             (JobSearchPage.handleSearch (JobSearchPage.Resolved response2)
                JobSearchPage.initial)).
Proof.
  split; [reflexivity|]. split; [reflexivity|]. split; [reflexivity|].
  apply (JobSearchFacts.search_results_rendered response2 _ 7 2
           JobSearchPage.initial); reflexivity.
Defined.

Lemma handleSubmit_payload_witness :
  SearchForm.datePosted typed_form ∈ fst <$> SearchForm.date_options
  ∧ if Js.blank (SearchForm.query typed_form)
    then SearchForm.handleSubmit typed_form = []
    else ∃ p, SearchForm.handleSubmit typed_form = [p]
      ∧ SearchForm.p_query p = Js.trim (SearchForm.query typed_form)
      ∧ SearchForm.p_query p ≠ "" ∧ Js.trim (SearchForm.p_query p) ≠ ""
      ∧ (SearchForm.p_location p = None
         ∨ ∃ l, SearchForm.p_location p = Some l ∧ l ≠ "" ∧ Js.trim l = l)
      ∧ (SearchForm.date_posted p = None
         ↔ SearchForm.selected_date_label typed_form = Some "Any Time").
Proof.
  assert (SearchForm.datePosted typed_form ∈ fst <$> SearchForm.date_options) as H
    by (apply (bool_decide_unpack _); vm_compute; exact I).
  split; [exact H|]. apply (SearchFormFacts.handleSubmit_payload typed_form H).
Defined.

Lemma rank_order_witness :
  NoDup (Pipeline.id_of <$> survivors3)
  ∧ ((∃ rest, Pipeline.rank 2 survivors3 ++ rest ≡ₚ survivors3
              ∧ ∀ a b, a ∈ Pipeline.rank 2 survivors3 → b ∈ rest →
                  Pipeline.outranks a b)
     ∧ length (Pipeline.rank 2 survivors3) = min 2 (length survivors3)
     ∧ (∀ i j a b, (i < j)%nat →
          Pipeline.rank 2 survivors3 !! i = Some a →
          Pipeline.rank 2 survivors3 !! j = Some b →
          (Pipeline.overall_of b <= Pipeline.overall_of a)%Q
          ∧ ((Pipeline.overall_of a == Pipeline.overall_of b)%Q →
             Pipeline.posted_compare (Pipeline.posted_of a) (Pipeline.posted_of b) ≠ Lt
             ∧ (Pipeline.posted_of a = Pipeline.posted_of b →
                String.ltb (Pipeline.id_of a) (Pipeline.id_of b) = true)))
     ∧ (∀ arrival, arrival ≡ₚ survivors3 →
          Pipeline.rank 2 arrival = Pipeline.rank 2 survivors3)).
Proof.
  assert (NoDup (Pipeline.id_of <$> survivors3)) as H
    by (apply (bool_decide_unpack _); vm_compute; exact I).
  split; [exact H|]. apply (RankerFacts.rank_order 2 survivors3 H).
Defined.

Lemma aggregate_overall_score_witness :
  (∀ d, 0 <= sample_weights d)%Q
  ∧ (∀ d x, sample_dimensions d = Some x → 0 <= x <= 1)%Q
  ∧ (is_Some (Pipeline.aggregate sample_weights sample_dimensions ["python"] ["aws"])
     ↔ ∃ d x, sample_dimensions d = Some x ∧ (0 < sample_weights d)%Q)
  ∧ ∀ r, Pipeline.aggregate sample_weights sample_dimensions ["python"] ["aws"] = Some r →
      (0 <= overall_score r <= 1)%Q
      ∧ (overall_score r
         == Pipeline.weighted_sum sample_weights sample_dimensions
            / Pipeline.weight_sum sample_weights sample_dimensions)%Q
      ∧ (skills_score r, experience_score r, location_score r,
         salary_score r, level_score r)
        = (sample_dimensions Pipeline.Skills, sample_dimensions Pipeline.Experience,
           sample_dimensions Pipeline.Place, sample_dimensions Pipeline.Salary,
           sample_dimensions Pipeline.Level)
      ∧ ∀ w', (∀ d, 0 <= w' d)%Q →
          (∀ d, is_Some (sample_dimensions d) → w' d == sample_weights d)%Q →
          ∃ r', Pipeline.aggregate w' sample_dimensions ["python"] ["aws"] = Some r'
                ∧ (overall_score r' == overall_score r)%Q.
Proof.
  assert (∀ d, 0 <= sample_weights d)%Q as Hw
    by (intros []; vm_compute; discriminate).
  assert (∀ d x, sample_dimensions d = Some x → 0 <= x <= 1)%Q as Hs.
  { intros [] x; simpl; intros [= <-]; split; vm_compute; discriminate. }
  split; [exact Hw|]. split; [exact Hs|].
  apply (AggregatorFacts.aggregate_overall_score sample_weights sample_dimensions
           ["python"] ["aws"] Hw Hs).
Defined.

Lemma min_score_default_noop_witness :
  Forall (λ m, 0 <= overall_score (score m))%Q survivors3
  ∧ ((Pipeline.default_threshold == 0)%Q
     ∧ Pipeline.min_score_filter Pipeline.default_threshold survivors3
       = {| Pipeline.surviving_jobs := survivors3; Pipeline.excluded := [] |}
     ∧ ∀ t m, m ∈ Pipeline.surviving_jobs (Pipeline.min_score_filter t survivors3)
              ↔ m ∈ survivors3 ∧ (t <= overall_score (score m))%Q).
Proof.
  assert (Forall (λ m, 0 <= overall_score (score m))%Q survivors3) as H.
  { repeat constructor; vm_compute; discriminate. }
  split; [exact H|].
  apply (MinScoreFacts.min_score_default_noop survivors3 H).
Defined.

Lemma remote_preference_enum_witness :
  Forall ProfilePage.remote_typed session
  ∧ (ProfilePage.remote_options = ["required"; "preferred"; "flexible"; "not_interested"]
     ∧ (∀ data,
          ProfilePage.d_remote_preference data = None
          ∨ ProfilePage.d_remote_preference data = Some "" →
          ProfilePage.remote_preference (ProfilePage.populateForm data) = "flexible")
     ∧ (∀ data v, ProfilePage.d_remote_preference data = Some v →
          v ∈ ProfilePage.remote_options →
          ProfilePage.remote_preference (ProfilePage.populateForm data) = v)
     ∧ ProfilePage.remote_preference (ProfilePage.run ProfilePage.empty_form session)
       ∈ ProfilePage.remote_options).
Proof.
  assert (Forall ProfilePage.remote_typed session) as H.
  { repeat constructor. }
  split; [exact H|].
  apply (ProfileFacts.remote_preference_enum session H).
Defined.

Lemma preferred_job_levels_invariant_witness :
  NoDup (ProfilePage.preferred_job_levels ProfilePage.empty_form)
  ∧ ProfilePage.preferred_job_levels ProfilePage.empty_form ⊆ ProfilePage.job_levels
  ∧ Forall ProfilePage.levels_typed session
  ∧ ((NoDup (ProfilePage.preferred_job_levels
               (ProfilePage.run ProfilePage.empty_form session))
      ∧ ProfilePage.preferred_job_levels
          (ProfilePage.run ProfilePage.empty_form session)
        ⊆ ProfilePage.job_levels)
     ∧ (∀ g level, level ∉ ProfilePage.preferred_job_levels g →
          ProfilePage.preferred_job_levels
            (ProfilePage.step g (ProfilePage.LevelClicked level))
          = ProfilePage.preferred_job_levels g ++ [level])
     ∧ (∀ g level, level ∈ ProfilePage.preferred_job_levels g →
          ProfilePage.preferred_job_levels
            (ProfilePage.step g (ProfilePage.LevelClicked level))
          = filter (λ l, l ≠ level) (ProfilePage.preferred_job_levels g)
          ∧ level ∉ ProfilePage.preferred_job_levels
                      (ProfilePage.step g (ProfilePage.LevelClicked level)))).
Proof.
  assert (NoDup (ProfilePage.preferred_job_levels ProfilePage.empty_form)) as H1
    by constructor.
  assert (ProfilePage.preferred_job_levels ProfilePage.empty_form
          ⊆ ProfilePage.job_levels) as H2
    by (intros x Hx; simpl in Hx; by apply elem_of_nil in Hx).
  assert (Forall ProfilePage.levels_typed session) as H3.
  { unfold session. repeat apply Forall_cons_2; try apply Forall_nil_2;
      try exact I; apply (bool_decide_unpack _); vm_compute; exact I. }
  split; [exact H1|]. split; [exact H2|]. split; [exact H3|].
  apply (ProfileFacts.preferred_job_levels_invariant ProfilePage.empty_form
           session H1 H2 H3).
Defined.

End Witnesses.

(** * Further properties of the front end *)

(** ** [toggleSource] *)

Module SourceFacts.
Import SearchForm.

Lemma filter_ne_absent (l : list string) x : x ∉ l → filter (λ s, s ≠ x) l = l.
Proof.
  induction l as [|y l IH]; [done|]. rewrite not_elem_of_cons. intros [Hne Hl].
  rewrite filter_cons_True by done. by rewrite IH.
Qed.

Lemma filter_ne_readd (l : list string) x :
  NoDup l → x ∈ l → filter (λ s, s ≠ x) l ++ [x] ≡ₚ l.
Proof.
  induction 1 as [|y l Hy Hnd IH]; [by intros ?%elem_of_nil|].
  destruct (decide (y = x)) as [->|Hne]; intros Hx.
  - rewrite filter_cons_False by (intros H; by apply H).
    rewrite filter_ne_absent by done. by rewrite Permutation_app_comm.
  - rewrite filter_cons_True by done. simpl. f_equiv. apply IH.
    apply elem_of_cons in Hx as [->|Hx]; done.
Qed.

(** X1. Ticking or unticking a source flips whether that source is
    selected and nothing else: every other source stays selected or
    unselected as it was, a duplicate-free selection stays
    duplicate-free, and the other cells of the form are untouched. *)
Theorem toggleSource_flips (source : string) (st : state) :
  NoDup (sources st) →
  NoDup (sources (toggleSource source st))
  ∧ (source ∈ sources (toggleSource source st) ↔ source ∉ sources st)
  ∧ (∀ other, other ≠ source →
       other ∈ sources (toggleSource source st) ↔ other ∈ sources st)
  ∧ (query (toggleSource source st), location (toggleSource source st),
     minScore (toggleSource source st), experienceLevel (toggleSource source st),
     employmentType (toggleSource source st), datePosted (toggleSource source st),
     remoteOnly (toggleSource source st))
    = (query st, location st, minScore st, experienceLevel st,
       employmentType st, datePosted st, remoteOnly st).
Proof.
  intros Hnd. unfold toggleSource. simpl.
  destruct (bool_decide_reflect (source ∈ sources st)) as [Hin|Hin].
  - split; [by apply NoDup_filter|]. split; [|split; [|done]].
    + rewrite list_elem_of_filter. split; [by intros [? _]|done].
    + intros other Hne. rewrite list_elem_of_filter. split; [by intros [_ ?]|done].
  - split; [|split; [|split; [|done]]].
    + apply NoDup_app. split; [done|]. split; [|apply NoDup_singleton].
      intros x Hx ->%list_elem_of_singleton. done.
    + rewrite elem_of_app, list_elem_of_singleton. split; [done|by right].
    + intros other Hne. rewrite elem_of_app, list_elem_of_singleton.
      split; [by intros [?|?]|by left].
Qed.

(** X2. Toggling the same source twice gives back the selection: the
    same list when the source was not selected, and the same sources
    with that one moved to the end when it was. *)
Theorem toggleSource_twice (source : string) (st : state) :
  NoDup (sources st) →
  sources (toggleSource source (toggleSource source st)) ≡ₚ sources st
  ∧ (source ∉ sources st →
     toggleSource source (toggleSource source st) = st)
  ∧ (source ∈ sources st →
     sources (toggleSource source (toggleSource source st))
     = filter (λ s, s ≠ source) (sources st) ++ [source]).
Proof.
  intros Hnd.
  assert (source ∈ sources st →
          sources (toggleSource source (toggleSource source st))
          = filter (λ s, s ≠ source) (sources st) ++ [source]) as Hin.
  { intros Hin. unfold toggleSource. simpl.
    rewrite (bool_decide_eq_true_2 _ Hin).
    rewrite bool_decide_eq_false_2; [done|].
    rewrite list_elem_of_filter. by intros [? _]. }
  assert (source ∉ sources st →
          toggleSource source (toggleSource source st) = st) as Hout.
  { intros Hout. unfold toggleSource. simpl.
    rewrite (bool_decide_eq_false_2 _ Hout).
    rewrite bool_decide_eq_true_2
      by (rewrite elem_of_app, list_elem_of_singleton; by right).
    rewrite filter_app, filter_ne_absent by done.
    rewrite filter_cons_False by (intros H; by apply H).
    rewrite filter_nil, app_nil_r. by destruct st. }
  split; [|done].
  destruct (decide (source ∈ sources st)) as [H|H].
  - rewrite (Hin H). by apply filter_ne_readd.
  - by rewrite (Hout H).
Qed.

End SourceFacts.

(** ** [JobCard] and [StatsCard] *)

Module CardFacts.
Import Js JsFacts JsMore Schema.

Lemma append_nonempty_l (s t : string) : s ≠ "" → s +:+ t ≠ "".
Proof. by destruct s. Qed.

Lemma or_null_nonempty s : s ≠ "" → or_null s = Some s.
Proof. intros H. by apply or_null_Some. Qed.

Lemma or_null_is_nonempty s t : or_null s = Some t → t ≠ "".
Proof. intros H. by apply or_null_Some in H as [_ ?]. Qed.

(** X3. The location line of a job card is never empty: it reads
    "Remote" for a remote job, otherwise the city and the state that are
    given and not empty, joined by a comma when both are, and "N/A"
    when neither is or the job has no location at all. *)
Theorem locationStr_cases (j : Job) :
  JobCard.locationStr j ≠ ""
  ∧ match location j with
    | None => JobCard.locationStr j = "N/A"
    | Some l =>
        if remote l then JobCard.locationStr j = "Remote"
        else
          JobCard.locationStr j
          = match city l ≫= or_null, state l ≫= or_null with
            | Some c, Some t => c +:+ ", " +:+ t
            | Some c, None => c
            | None, Some t => t
            | None, None => "N/A"
            end
    end.
Proof.
  unfold JobCard.locationStr, filter_Boolean.
  destruct (location j) as [l|]; simpl; [|done].
  destruct (remote l); [done|]. simpl.
  destruct (city l ≫= or_null) as [c|] eqn:Ec,
    (state l ≫= or_null) as [t|] eqn:Et; simpl.
  - assert (c ≠ "") as Hc.
    { destruct (city l) as [x|]; [|done]. by apply (or_null_is_nonempty x). }
    rewrite or_null_nonempty by (by apply append_nonempty_l). simpl.
    split; [by apply append_nonempty_l|done].
  - assert (c ≠ "") as Hc.
    { destruct (city l) as [x|]; [|done]. by apply (or_null_is_nonempty x). }
    by rewrite or_null_nonempty.
  - assert (t ≠ "") as Ht.
    { destruct (state l) as [x|]; [|done]. by apply (or_null_is_nonempty x). }
    by rewrite or_null_nonempty.
  - done.
Qed.

(** The keys of [colors] are not names of inherited properties. *)
Lemma colors_key color s :
  StatsCard.colors !! color = Some s →
  (color, s) ∈ [ ("blue", "bg-blue-50 text-blue-700");
                 ("green", "bg-green-50 text-green-700");
                 ("purple", "bg-purple-50 text-purple-700");
                 ("orange", "bg-orange-50 text-orange-700") ].
Proof. intros H. by apply elem_of_list_to_map_2 in H. Qed.

(** X4. The stats card takes the text class of the entry of its colour,
    the part after the space, for each of the four colours of the table;
    it falls back to the gray text class for a colour that is neither in
    the table nor the name of a property inherited from
    [Object.prototype]; and it throws exactly for the colours that are
    such names, whose inherited value has no [split]. *)
Theorem StatsCard_value_class (color : string) :
  (StatsCard.value_class color = Thrown ↔ is_Some (ObjectPrototype !! color))
  ∧ (StatsCard.colors !! color = None → ObjectPrototype !! color = None →
     StatsCard.value_class color = Returned "text-gray-800")
  ∧ (∀ s, StatsCard.colors !! color = Some s →
       StatsCard.value_class color
       = Returned ("text-" +:+ color +:+ "-700")
       ∧ s = "bg-" +:+ color +:+ "-50 text-" +:+ color +:+ "-700").
Proof.
  unfold StatsCard.value_class, get.
  destruct (StatsCard.colors !! color) as [s|] eqn:E.
  - apply colors_key in E. rewrite !elem_of_cons, elem_of_nil in E.
    destruct E as [E|[E|[E|[E|[]]]]]; injection E as -> ->;
      (split; [split; [discriminate|by intros [? [=]]]|]);
      (split; [done|]); intros s' [= <-]; by split.
  - split; [|split; [|done]].
    + destruct (ObjectPrototype !! color) as [v|] eqn:P; simpl.
      * apply elem_of_list_to_map_2 in P. rewrite !elem_of_cons, elem_of_nil in P.
        split; [by eexists|]. intros _.
        repeat (destruct P as [[= -> ->]|P]; [done|]). done.
      * split; [discriminate|by intros [? [=]]].
    + intros _ ->. done.
Qed.

End CardFacts.

(** ** The tag helpers of the profile editor *)

Module TagFacts.
Import Js JsFacts ProfilePage ProfileTags SourceFacts.

Lemma tags_with_tags field l f : tags field (with_tags field l f) = l.
Proof. by destruct field. Qed.

Lemma with_tags_same field f : with_tags field (tags field f) f = f.
Proof. by destruct field, f. Qed.

Lemma with_tags_twice field l1 l2 f :
  with_tags field l2 (with_tags field l1 f) = with_tags field l2 f.
Proof. by destruct field. Qed.

Lemma clean_trim text : trim text ≠ "" → clean (trim text).
Proof. intros H. split; [apply trim_idem|done]. Qed.

(** What [addTag] does, by cases. *)
Lemma addTag_cases field text f :
  (trim text ≠ "" ∧ (trim text ∉ tags field f)
   ∧ addTag field text f = (with_tags field (tags field f ++ [trim text]) f, ""))
  ∨ ((trim text = "" ∨ trim text ∈ tags field f)
     ∧ addTag field text f = (f, text)).
Proof.
  unfold addTag. destruct (String.eqb_spec (trim text) "") as [E|E]; simpl.
  - right. split; [by left|done].
  - destruct (bool_decide_reflect (trim text ∈ tags field f)); simpl.
    + right. split; [by right|done].
    + by left.
Qed.

Lemma tag_step_keeps field f e :
  NoDup (tags field f) ∧ Forall clean (tags field f) →
  NoDup (tags field (tag_step field f e))
  ∧ Forall clean (tags field (tag_step field f e)).
Proof.
  intros [Hnd Hc]. destruct e as [text|tag]; simpl.
  - destruct (addTag_cases field text f) as [(Hne & Hout & ->)|[_ ->]]; [|done].
    simpl. rewrite tags_with_tags. split.
    + apply NoDup_app. split; [done|]. split; [|apply NoDup_singleton].
      intros x Hx ->%list_elem_of_singleton. done.
    + apply Forall_app. split; [done|]. apply Forall_singleton. by apply clean_trim.
  - unfold removeTag. rewrite tags_with_tags. split.
    + by apply NoDup_filter.
    + rewrite Forall_forall in Hc |- *. intros x Hx.
      apply list_elem_of_filter in Hx as [_ Hx]. by apply Hc.
Qed.

(** X5. Whatever is typed and whichever buttons are pressed, the skills
    (and likewise the certifications) stay a duplicate-free list of
    trimmed, non-empty tags, provided they were so to begin with, as the
    empty form's are. *)
Theorem tags_stay_clean (field : tag_field) (f : form) (es : list tag_event) :
  NoDup (tags field f) →
  Forall clean (tags field f) →
  NoDup (tags field (foldl (tag_step field) f es))
  ∧ Forall clean (tags field (foldl (tag_step field) f es)).
Proof.
  intros Hnd Hc. revert f Hnd Hc.
  induction es as [|e es IH]; intros f Hnd Hc; simpl; [done|].
  destruct (tag_step_keeps field f e (conj Hnd Hc)) as [? ?]. by apply IH.
Qed.

(** X6. Pressing Add stores the trimmed text and empties the input when
    the trimmed text is not empty and not yet a tag, and in every other
    case leaves both the form and the input as they were; pressing Add
    again straight away never changes the form a second time. *)
Theorem addTag_once (field : tag_field) (text : string) (f : form) :
  (if bool_decide (trim text ≠ "" ∧ trim text ∉ tags field f)
   then tags field (fst (addTag field text f)) = tags field f ++ [trim text]
        ∧ snd (addTag field text f) = ""
   else addTag field text f = (f, text))
  ∧ fst (addTag field (snd (addTag field text f)) (fst (addTag field text f)))
    = fst (addTag field text f)
  ∧ fst (addTag field text (fst (addTag field text f)))
    = fst (addTag field text f).
Proof.
  destruct (addTag_cases field text f) as [(Hne & Hout & E)|[Hno E]].
  - rewrite bool_decide_eq_true_2 by done. rewrite E. simpl.
    rewrite tags_with_tags. split; [done|]. split.
    + reflexivity.
    + destruct (addTag_cases field text
                  (with_tags field (tags field f ++ [trim text]) f))
        as [(_ & Hout' & _)|[_ ->]]; [|done].
      exfalso. apply Hout'. rewrite tags_with_tags, elem_of_app, list_elem_of_singleton.
      by right.
  - rewrite bool_decide_eq_false_2 by (intros [? ?]; by destruct Hno).
    rewrite E. simpl. by rewrite E.
Qed.

(** X7. Removing a tag that was just added gives back the form as it
    was before the tag was added. *)
Theorem removeTag_addTag (field : tag_field) (text : string) (f : form) :
  trim text ≠ "" →
  trim text ∉ tags field f →
  removeTag field (trim text) (fst (addTag field text f)) = f.
Proof.
  intros Hne Hout.
  destruct (addTag_cases field text f) as [(_ & _ & ->)|[[?|?] _]]; [|done..].
  simpl. unfold removeTag. rewrite tags_with_tags, with_tags_twice.
  rewrite filter_app, filter_ne_absent by done.
  rewrite filter_cons_False by (intros H; by apply H).
  rewrite filter_nil, app_nil_r. apply with_tags_same.
Qed.

(** X8. Pressing the x of a tag removes every occurrence of that tag and
    nothing else: the other tags keep their order, the tags of the other
    field are untouched, and removing a tag that is not there changes
    nothing. *)
Theorem removeTag_only (field : tag_field) (tag : string) (f : form) :
  (tag ∉ tags field (removeTag field tag f))
  ∧ (tags field (removeTag field tag f) `sublist_of` tags field f)
  ∧ (∀ other, other ≠ tag →
       other ∈ tags field (removeTag field tag f) ↔ other ∈ tags field f)
  ∧ (∀ field', field' ≠ field →
       tags field' (removeTag field tag f) = tags field' f)
  ∧ (tag ∉ tags field f → removeTag field tag f = f).
Proof.
  unfold removeTag. rewrite tags_with_tags. split; [|split; [|split; [|split]]].
  - rewrite list_elem_of_filter. by intros [? _].
  - apply sublist_filter.
  - intros other Hne. rewrite list_elem_of_filter. split; [by intros [_ ?]|done].
  - intros field' Hne. by destruct field, field'.
  - intros Hout. rewrite filter_ne_absent by done. apply with_tags_same.
Qed.

End TagFacts.

(** ** The lists of entries of the profile editor *)

Module EntryFacts.
Import Js JsFacts JsMore ProfileEntries.

Lemma spread_holeless a : holeless a → spread a = a.
Proof.
  unfold holeless, spread. induction a as [|s a IH]; [done|].
  rewrite not_elem_of_cons. intros [Hs Ha]. rewrite fmap_cons, IH by done.
  by destruct s.
Qed.

Lemma length_spread a : length (spread a) = length a.
Proof. unfold spread. apply length_fmap. Qed.

Lemma listed_holeless a : listed a → holeless a.
Proof.
  unfold listed, holeless. rewrite Forall_forall. intros H Hin.
  by destruct (H _ Hin) as (? & ? & ? & _).
Qed.

Lemma spread_listed a : listed a → spread a = a.
Proof. intros H. by apply spread_holeless, listed_holeless. Qed.

(** Without holes, filtering by index deletes one position. *)
Lemma filter_index_delete a k i :
  holeless a →
  filter_index k i a = if decide (k ≤ i)%nat then delete (i - k) a else a.
Proof.
  unfold holeless. revert k. induction a as [|s a IH]; intros k.
  - intros _. simpl. by case_decide.
  - rewrite not_elem_of_cons. intros [Hs Ha]. simpl.
    rewrite (IH (S k) Ha). destruct s; [done| |];
      (destruct (Nat.eqb_spec k i) as [->|Hne];
       [ rewrite decide_False by lia; rewrite decide_True by lia;
         by rewrite Nat.sub_diag
       | repeat case_decide; try lia; try done;
         replace (i - k) with (S (i - S k)) by lia; done ]).
Qed.

Lemma assign_in_range i s a : i < length a → assign i s a = <[i := s]> a.
Proof. intros H. unfold assign. by rewrite decide_True. Qed.

Lemma listed_lookup a i :
  listed a → i < length a →
  ∃ o l, a !! i = Some (Item o) ∧ o !! "skills" = Some (Tags l).
Proof.
  intros Ha Hi. destruct (lookup_lt_is_Some_2 a i Hi) as [s Hs].
  unfold listed in Ha. rewrite Forall_forall in Ha.
  destruct (Ha s) as (o & l & -> & Hl); [by eapply list_elem_of_lookup_2|]. eauto.
Qed.

Lemma listed_insert a i o l :
  listed a → o !! "skills" = Some (Tags l) → listed (<[i := Item o]> a).
Proof. intros Ha Ho. apply Forall_insert; [done|]. eauto. Qed.

Lemma experience_field_not_skills field :
  field ∈ experience_fields → field ≠ "skills".
Proof. intros H ->. revert H. by apply (bool_decide_eq_false_1 _). Qed.

Lemma updateExperience_listed a i field value :
  listed a → i < length a → field ≠ "skills" →
  listed (updateExperience i field value a)
  ∧ length (updateExperience i field value a) = length a.
Proof.
  intros Ha Hi Hf. unfold updateExperience. rewrite (spread_listed a Ha).
  rewrite assign_in_range by done. rewrite length_insert. split; [|done].
  destruct (listed_lookup a i Ha Hi) as (o & l & -> & Hl). simpl.
  apply (listed_insert a i _ l Ha).
  destruct (_ && _); rewrite ?lookup_insert_ne by done; done.
Qed.

Lemma addExperience_listed a :
  listed a → listed (addExperience a) ∧ length (addExperience a) = S (length a).
Proof.
  intros Ha. unfold addExperience, add_entry. rewrite (spread_listed a Ha). split.
  - apply Forall_app. split; [done|]. apply Forall_singleton.
    exists EMPTY_EXP, []. done.
  - rewrite length_app. simpl. lia.
Qed.

Lemma remove_entry_delete a i : holeless a → remove_entry i a = delete i a.
Proof.
  intros Ha. unfold remove_entry. rewrite filter_index_delete by done.
  rewrite decide_True by lia. by rewrite Nat.sub_0_r.
Qed.

Lemma remove_entry_listed a i :
  listed a → i < length a →
  listed (remove_entry i a) ∧ length (remove_entry i a) = pred (length a).
Proof.
  intros Ha Hi. rewrite remove_entry_delete by by apply listed_holeless. split.
  - by apply Forall_delete.
  - rewrite length_delete; [lia|]. by apply lookup_lt_is_Some_2.
Qed.

Lemma addExpSkill_listed a inputs i :
  listed a → i < length a →
  ∃ a' inputs', addExpSkill i inputs a = Returned (a', inputs')
    ∧ listed a' ∧ length a' = length a.
Proof.
  intros Ha Hi. unfold addExpSkill.
  destruct (String.eqb _ ""); [by eauto|].
  destruct (listed_lookup a i Ha Hi) as (o & l & Ho & Hl).
  rewrite Ho. simpl. rewrite Hl.
  destruct (bool_decide _); [by eauto|].
  eexists _, _. split; [reflexivity|].
  rewrite (spread_listed a Ha), assign_in_range by done.
  rewrite length_insert. split; [|done].
  eapply listed_insert; [done|]. apply lookup_insert_eq.
Qed.

Lemma removeExpSkill_listed a i skill :
  listed a → i < length a →
  ∃ a', removeExpSkill i skill a = Returned a'
    ∧ listed a' ∧ length a' = length a.
Proof.
  intros Ha Hi. unfold removeExpSkill. rewrite (spread_listed a Ha).
  destruct (listed_lookup a i Ha Hi) as (o & l & Ho & Hl).
  rewrite Ho, Hl. eexists. split; [reflexivity|].
  rewrite assign_in_range by done. rewrite length_insert. split; [|done].
  eapply listed_insert; [done|]. apply lookup_insert_eq.
Qed.

(** X9. Starting from experiences that each are an object with a list of
    skills, no sequence of events the Work Experience section can raise
    makes a handler throw, and the experiences stay such objects: the
    editor can always draw them again. *)
Theorem experiences_stay_listed (st : experiences) (es : list entry_event) :
  listed (work_experience st) →
  drawn (length (work_experience st)) es →
  ∃ st', entry_run st es = Returned st' ∧ listed (work_experience st').
Proof.
  revert st. induction es as [|e es IH]; intros st Ha Hes; simpl; [by eauto|].
  destruct e as [|i|i field value|i text|i|i skill]; simpl in *.
  - destruct (addExperience_listed _ Ha) as [Hl Hn].
    apply IH; simpl; [done|]. by rewrite Hn.
  - destruct Hes as [Hi Hes].
    destruct (remove_entry_listed _ i Ha Hi) as [Hl Hn].
    apply IH; simpl; [done|]. by rewrite Hn.
  - destruct Hes as (Hi & Hf & Hes).
    destruct (updateExperience_listed _ i field value Ha Hi
                (experience_field_not_skills _ Hf)) as [Hl Hn].
    apply IH; simpl; [done|]. by rewrite Hn.
  - destruct Hes as [Hi Hes]. by apply IH.
  - destruct Hes as [Hi Hes].
    destruct (addExpSkill_listed _ (newExpSkill st) i Ha Hi)
      as (a' & inputs' & -> & Hl & Hn).
    apply IH; simpl; [done|]. by rewrite Hn.
  - destruct Hes as [Hi Hes].
    destruct (removeExpSkill_listed _ i skill Ha Hi) as (a' & -> & Hl & Hn).
    apply IH; simpl; [done|]. by rewrite Hn.
Qed.

Lemma delete_past_end {A} (l : list A) i : (length l ≤ i)%nat → delete i l = l.
Proof.
  revert i. induction l as [|x l IH]; intros i Hi; [by destruct i|].
  destruct i as [|i]; simpl in *; [lia|]. f_equal. apply IH. lia.
Qed.

(** X10. Pressing Remove on entry [i] of a list without holes removes
    exactly that entry: the entries before it stay where they are, the
    entries after it move up by one, and an index past the end removes
    nothing. *)
Theorem remove_entry_positions (a : list slot) (i : nat) :
  holeless a →
  (∀ j, j < i → remove_entry i a !! j = a !! j)
  ∧ (∀ j, (i ≤ j)%nat → remove_entry i a !! j = a !! S j)
  ∧ (i < length a → length (remove_entry i a) = pred (length a))
  ∧ ((length a ≤ i)%nat → remove_entry i a = a).
Proof.
  intros Ha. rewrite remove_entry_delete by done. split; [|split; [|split]].
  - intros j Hj. by apply list_lookup_delete_lt.
  - intros j Hj. by apply list_lookup_delete_ge.
  - intros Hi. rewrite length_delete; [lia|]. by apply lookup_lt_is_Some_2.
  - apply delete_past_end.
Qed.

(** X11. Adding an entry appends one carrying the empty values and
    leaves the others alone; removing the entry just added gives back
    the list as it was. *)
Theorem add_entry_remove (empty : gmap string val) (a : list slot) :
  holeless a →
  add_entry empty a = a ++ [Item empty]
  ∧ add_entry empty a !! length a = Some (Item empty)
  ∧ (∀ j, j < length a → add_entry empty a !! j = a !! j)
  ∧ holeless (add_entry empty a)
  ∧ remove_entry (length a) (add_entry empty a) = a.
Proof.
  intros Ha. unfold add_entry. rewrite spread_holeless by done.
  assert (holeless (a ++ [Item empty])) as Ha'.
  { unfold holeless in *. rewrite elem_of_app, list_elem_of_singleton.
    by intros [?|?]. }
  split; [done|]. split; [by apply list_lookup_middle|]. split; [|split; [done|]].
  - intros j Hj. by apply lookup_app_l.
  - rewrite remove_entry_delete by done. rewrite delete_middle. apply app_nil_r.
Qed.

(** X12. Changing a field of entry [i], an entry there is, rewrites that
    entry only: the list keeps its length, every other entry is
    untouched, the field holds the new value, and every other field of
    the entry except possibly [end_date] keeps its value. *)
Theorem updateExperience_frame (a : list slot) (i : nat) (field : string)
    (value : val) :
  holeless a →
  i < length a →
  length (updateExperience i field value a) = length a
  ∧ (∀ j, j ≠ i → updateExperience i field value a !! j = a !! j)
  ∧ ∃ o, updateExperience i field value a !! i = Some (Item o)
      ∧ o !! field = Some value
      ∧ ∀ k, k ≠ field → k ≠ "end_date" → o !! k = object_of (a !! i) !! k.
Proof.
  intros Ha Hi. unfold updateExperience. rewrite spread_holeless by done.
  rewrite assign_in_range by done. rewrite length_insert. split; [done|]. split.
  - intros j Hj. by apply list_lookup_insert_ne.
  - eexists. split; [by apply list_lookup_insert_eq|].
    destruct (String.eqb_spec field "is_current") as [->|Hf]; simpl.
    + destruct (truthy_val value); split.
      * rewrite lookup_insert_ne by done. apply lookup_insert_eq.
      * intros k Hk He. by rewrite !lookup_insert_ne.
      * apply lookup_insert_eq.
      * intros k Hk He. by rewrite lookup_insert_ne.
    + split; [apply lookup_insert_eq|].
      intros k Hk He. by rewrite lookup_insert_ne.
Qed.

(** X13. Ticking "Currently working here" on an entry empties its end
    date; unticking it, or changing any field other than the end date,
    leaves the end date as it was. *)
Theorem updateExperience_end_date (a : list slot) (i : nat) (field : string)
    (value : val) :
  holeless a →
  i < length a →
  ∃ o, updateExperience i field value a !! i = Some (Item o)
    ∧ o !! "end_date"
      = if bool_decide (field = "is_current") && truthy_val value
        then Some (Str "")
        else if bool_decide (field = "end_date") then Some value
        else object_of (a !! i) !! "end_date".
Proof.
  intros Ha Hi. unfold updateExperience. rewrite spread_holeless by done.
  rewrite assign_in_range by done.
  eexists. split; [by apply list_lookup_insert_eq|].
  destruct (String.eqb_spec field "is_current") as [->|Hf].
  - rewrite bool_decide_eq_true_2 by done. simpl.
    destruct (truthy_val value); [apply lookup_insert_eq|].
    by rewrite lookup_insert_ne.
  - rewrite (bool_decide_eq_false_2 _ Hf). simpl. case_bool_decide as Hd.
    + subst. apply lookup_insert_eq.
    + by rewrite lookup_insert_ne.
Qed.

(** X14. Changing a field of an entry past the end, which no control of
    the editor does, grows the list up to that index: the entries there
    were stay, the positions in between are holes, and the new entry
    holds nothing but the field (and an empty end date when the field
    is a truthy [is_current]). *)
Theorem updateExperience_past_end (a : list slot) (i : nat) (field : string)
    (value : val) :
  holeless a →
  (length a ≤ i)%nat →
  length (updateExperience i field value a) = S i
  ∧ (∀ j, j < length a → updateExperience i field value a !! j = a !! j)
  ∧ (∀ j, (length a ≤ j)%nat → j < i →
       updateExperience i field value a !! j = Some Hole)
  ∧ updateExperience i field value a !! i
    = Some (Item (if String.eqb field "is_current" && truthy_val value
                  then <["end_date" := Str ""]> {[ field := value ]}
                  else {[ field := value ]})).
Proof.
  intros Ha Hi. unfold updateExperience. rewrite spread_holeless by done.
  rewrite (lookup_ge_None_2 a i) by done. simpl. rewrite insert_empty.
  unfold assign. rewrite decide_False by lia. split; [|split; [|split]].
  - rewrite !length_app, length_replicate. simpl. lia.
  - intros j Hj. by rewrite lookup_app_l.
  - intros j Hj1 Hj2. rewrite lookup_app_r by done.
    rewrite lookup_app_l by (rewrite length_replicate; lia).
    apply lookup_replicate_2. lia.
  - rewrite lookup_app_r by done. rewrite lookup_app_r by (rewrite length_replicate; lia).
    rewrite length_replicate. by rewrite Nat.sub_diag.
Qed.

(** What [addExpSkill] does once the text is not blank and entry [i] has
    its list of skills. *)
Lemma addExpSkill_on_entry a inputs i o l :
  holeless a →
  a !! i = Some (Item o) → o !! "skills" = Some (Tags l) →
  trim (default "" (inputs !! i)) ≠ "" →
  addExpSkill i inputs a
  = if bool_decide (trim (default "" (inputs !! i)) ∈ l)
    then Returned (a, inputs)
    else Returned
           (<[i := Item (<["skills" :=
                            Tags (l ++ [trim (default "" (inputs !! i))])]> o)]> a,
            <[i := ""]> inputs).
Proof.
  intros Ha Ho Hl Hne. unfold addExpSkill.
  destruct (String.eqb_spec (trim (default "" (inputs !! i))) ""); [done|].
  rewrite Ho. simpl. rewrite Hl. destruct (bool_decide _); [done|].
  rewrite spread_holeless by done. rewrite Ho. simpl.
  rewrite assign_in_range by (by eapply lookup_lt_Some).
  unfold skills_with. by rewrite Hl.
Qed.

(** X15. Pressing Add on the skill input of an experience never throws
    while the input is blank, and then changes nothing. With text in
    the input it throws when there is no entry at that index, and on an
    entry with its list of skills it appends the trimmed text and
    empties the input unless the text is already a skill: a
    duplicate-free list of skills stays duplicate-free, and no other
    entry and no other field of the entry changes. *)
Theorem addExpSkill_cases (i : nat) (inputs : gmap nat string) (a : list slot) :
  holeless a →
  (trim (default "" (inputs !! i)) = "" →
   addExpSkill i inputs a = Returned (a, inputs))
  ∧ (trim (default "" (inputs !! i)) ≠ "" → (length a ≤ i)%nat →
     addExpSkill i inputs a = Thrown)
  ∧ (∀ o l, trim (default "" (inputs !! i)) ≠ "" →
       a !! i = Some (Item o) → o !! "skills" = Some (Tags l) → NoDup l →
       ∃ a' inputs' l',
         addExpSkill i inputs a = Returned (a', inputs')
         ∧ a' = <[i := Item (<["skills" := Tags l']> o)]> a
         ∧ NoDup l'
         ∧ (∀ s, s ∈ l' ↔ s ∈ l ∨ s = trim (default "" (inputs !! i)))
         ∧ (trim (default "" (inputs !! i)) ∉ l →
            l' = l ++ [trim (default "" (inputs !! i))] ∧ inputs' !! i = Some "")
         ∧ (trim (default "" (inputs !! i)) ∈ l → a' = a ∧ inputs' = inputs)).
Proof.
  intros Ha. split; [|split].
  - intros E. unfold addExpSkill. by rewrite E.
  - intros Hne Hi. unfold addExpSkill.
    destruct (String.eqb_spec (trim (default "" (inputs !! i))) ""); [done|].
    by rewrite (lookup_ge_None_2 a i).
  - intros o l Hne Ho Hl Hnd.
    rewrite (addExpSkill_on_entry a inputs i o l Ha Ho Hl Hne).
    destruct (bool_decide_reflect (trim (default "" (inputs !! i)) ∈ l)) as [Hin|Hout].
    + exists a, inputs, l. split; [done|]. split.
      { symmetry. apply list_insert_id. rewrite Ho. do 2 f_equal.
        symmetry. by apply insert_id. }
      split; [done|]. split; [|split; [done|done]].
      intros s. split; [by left|]. by intros [?| ->].
    + eexists _, _, _. split; [reflexivity|]. split; [done|]. split.
      { apply NoDup_app. split; [done|]. split; [|apply NoDup_singleton].
        intros x Hx ->%list_elem_of_singleton. done. }
      split; [|split; [|done]].
      * intros s. by rewrite elem_of_app, list_elem_of_singleton.
      * intros _. split; [done|]. apply lookup_insert_eq.
Qed.

(** X16. Removing a skill that was just added to an experience gives
    back the experiences as they were. *)
Theorem removeExpSkill_addExpSkill (i : nat) (inputs : gmap nat string)
    (a : list slot) (o : gmap string val) (l : list string) :
  holeless a →
  a !! i = Some (Item o) →
  o !! "skills" = Some (Tags l) →
  trim (default "" (inputs !! i)) ≠ "" →
  trim (default "" (inputs !! i)) ∉ l →
  ∃ a' inputs',
    addExpSkill i inputs a = Returned (a', inputs')
    ∧ removeExpSkill i (trim (default "" (inputs !! i))) a' = Returned a.
Proof.
  intros Ha Ho Hl Hne Hout.
  rewrite (addExpSkill_on_entry a inputs i o l Ha Ho Hl Hne).
  rewrite bool_decide_eq_false_2 by done.
  eexists _, _. split; [reflexivity|].
  assert (i < length a) as Hi by (by eapply lookup_lt_Some).
  unfold removeExpSkill. rewrite spread_holeless.
  - rewrite list_lookup_insert_eq by done. rewrite lookup_insert_eq.
    rewrite assign_in_range by (by rewrite length_insert).
    rewrite list_insert_insert_eq, insert_insert_eq.
    rewrite filter_app, SourceFacts.filter_ne_absent by done.
    rewrite filter_cons_False by (intros H; by apply H).
    rewrite filter_nil, app_nil_r. rewrite insert_id by done.
    by rewrite list_insert_id.
  - unfold holeless in *. intros Hin. apply list_elem_of_lookup in Hin as [j Hj].
    destruct (decide (j = i)) as [->|Hji].
    + by rewrite list_lookup_insert_eq in Hj.
    + rewrite list_lookup_insert_ne in Hj by done.
      apply Ha. by eapply list_elem_of_lookup_2.
Qed.

Lemma holeless_insert a i o : holeless a → holeless (<[i := Item o]> a).
Proof.
  unfold holeless. intros Ha Hin. apply list_elem_of_lookup in Hin as [j Hj].
  destruct (decide (i = j)) as [->|Hne].
  - destruct (decide (j < length a)).
    + by rewrite list_lookup_insert_eq in Hj.
    + rewrite list_insert_ge in Hj by lia. apply Ha. by eapply list_elem_of_lookup_2.
  - rewrite list_lookup_insert_ne in Hj by done.
    apply Ha. by eapply list_elem_of_lookup_2.
Qed.

Lemma update_entry_insert a i field value :
  holeless a → i < length a →
  update_entry i field value a
  = <[i := Item (<[field := value]> (object_of (a !! i)))]> a.
Proof.
  intros Ha Hi. unfold update_entry. rewrite spread_holeless by done.
  by rewrite assign_in_range.
Qed.

(** X21. Changes made through [updateEducation] or [updatePrefLocation]
    to entries there are compose as writes to separate cells: a second
    change of the same field of the same entry replaces the first, and
    changes of different fields or of different entries give the same
    list in either order. *)
Theorem update_entry_compose (a : list slot) (i j : nat) (f g : string)
    (v w : val) :
  holeless a →
  i < length a →
  j < length a →
  update_entry i f w (update_entry i f v a) = update_entry i f w a
  ∧ (i ≠ j ∨ f ≠ g →
     update_entry i f v (update_entry j g w a)
     = update_entry j g w (update_entry i f v a)).
Proof.
  intros Ha Hi Hj. split.
  - rewrite (update_entry_insert a i f v) by done.
    rewrite update_entry_insert
      by (by apply holeless_insert || by rewrite length_insert).
    rewrite list_lookup_insert_eq by done. simpl.
    rewrite list_insert_insert_eq, insert_insert_eq.
    by rewrite update_entry_insert.
  - intros Hd.
    rewrite (update_entry_insert a j g w), (update_entry_insert a i f v) by done.
    rewrite !update_entry_insert
      by (by apply holeless_insert || by rewrite length_insert).
    destruct (decide (i = j)) as [->|Hij].
    + destruct Hd as [?|Hfg]; [done|].
      rewrite !list_lookup_insert_eq by done. simpl.
      rewrite !list_insert_insert_eq. by rewrite insert_insert_ne.
    + rewrite !list_lookup_insert_ne by done.
      by rewrite list_insert_insert_ne.
Qed.

End EntryFacts.

(** ** The applications page *)

Module ApplicationsFacts.
Import Js JsFacts ApplicationsPage ApplicationsSession.

Lemma fallback_nonempty (detail : option string) (text : string) :
  text ≠ "" → default text (detail ≫= or_null) ≠ "".
Proof.
  intros H. destruct detail as [d|]; simpl; [|done].
  destruct (or_null d) as [t|] eqn:E; simpl; [|done].
  by apply or_null_Some in E as [_ ?].
Qed.

Lemma fetchApplications_banner r st : banner st → banner (fetchApplications r st).
Proof.
  intros (t & Ht & Hne). destruct r; simpl.
  - by exists t.
  - by eexists.
Qed.

Lemma step_banner st e : banner st → banner (fst (step st e)).
Proof.
  intros H. destruct e as [r|tab r|id s [|d] r|id [|d] r]; simpl.
  - by apply fetchApplications_banner.
  - destruct (String.eqb _ _); simpl; [done|].
    apply fetchApplications_banner. destruct H as (t & ? & ?). by exists t.
  - by apply fetchApplications_banner.
  - eexists. split; [done|]. by apply fallback_nonempty.
  - by apply fetchApplications_banner.
  - by eexists.
Qed.

(** X17. Once the applications page shows its error banner, it shows it
    for good: no tab, status change, deletion or reload, successful or
    not, takes the banner away again. *)
Theorem error_banner_stays (st : state) (es : list event) :
  banner st → banner (fst (run st es)).
Proof.
  revert st. induction es as [|e es IH]; intros st H; simpl; [done|].
  by apply IH, step_banner.
Qed.

Lemma list_params_valid tab s :
  tab ∈ STATUSES → list_params tab = Some s → s ∈ VALID_STATUSES.
Proof.
  unfold list_params, STATUSES. rewrite elem_of_cons. intros [->|H]; [done|].
  destruct (String.eqb tab "all"); [done|]. by intros [= <-].
Qed.

Lemma select_value_valid s : s ∈ value <$> status_options → s ∈ VALID_STATUSES.
Proof.
  unfold status_options. rewrite <- list_fmap_compose. by rewrite list_fmap_id.
Qed.

Lemma step_requests st e r s :
  filter st ∈ STATUSES → raised e →
  r ∈ snd (step st e) → named_status r = Some s →
  s ∈ VALID_STATUSES ∧ filter (fst (step st e)) ∈ STATUSES.
Proof.
  intros Hf He. assert (∀ l st', filter (fetchApplications l st') = filter st')
    as Hfetch by (by intros []).
  destruct e as [l|tab l|id status [|d] l|id [|d] l]; simpl in *.
  - rewrite Hfetch. intros ->%list_elem_of_singleton. simpl.
    intros E. split; [by eapply list_params_valid|done].
  - destruct (String.eqb tab (filter st)); simpl; [by intros ?%elem_of_nil|].
    rewrite Hfetch. intros ->%list_elem_of_singleton. simpl.
    intros E. split; [by eapply list_params_valid|done].
  - rewrite Hfetch, !elem_of_cons, elem_of_nil. intros [->|[->|[]]]; simpl.
    + intros [= <-]. split; [by apply select_value_valid|done].
    + intros E. split; [by eapply list_params_valid|done].
  - intros ->%list_elem_of_singleton. simpl.
    intros [= <-]. split; [by apply select_value_valid|done].
  - rewrite Hfetch, !elem_of_cons, elem_of_nil. intros [->|[->|[]]]; simpl; [done|].
    intros E. split; [by eapply list_params_valid|done].
  - by intros ->%list_elem_of_singleton.
Qed.

Lemma step_filter st e :
  filter st ∈ STATUSES → raised e → filter (fst (step st e)) ∈ STATUSES.
Proof.
  intros Hf He. assert (∀ l st', filter (fetchApplications l st') = filter st')
    as Hfetch by (by intros []).
  destruct e as [l|tab l|id status [|d] l|id [|d] l]; simpl in *;
    rewrite ?Hfetch; try done.
  destruct (String.eqb tab (filter st)); simpl; [done|]. by rewrite Hfetch.
Qed.

(** X18. Whatever tabs are clicked and whatever statuses are chosen, and
    however the requests settle, every request the applications page
    sends that names a status names one of the six the page knows: the
    list request never carries ["all"], which is sent as no status at
    all. *)
Theorem requests_name_valid_statuses (st : state) (es : list event) :
  filter st ∈ STATUSES →
  Forall raised es →
  ∀ r s, r ∈ snd (run st es) → named_status r = Some s →
    s ∈ VALID_STATUSES ∧ s ≠ "all".
Proof.
  intros Hf Hes. revert st Hf.
  induction Hes as [|e es He _ IH]; intros st Hf r s; simpl.
  - by intros ?%elem_of_nil.
  - rewrite elem_of_app. intros [Hr|Hr] Hs.
    + destruct (step_requests st e r s Hf He Hr Hs) as [Hv _].
      split; [done|]. intros ->. revert Hv. by apply (bool_decide_eq_false_1 _).
    + eapply IH; [|done..]. by apply step_filter.
Qed.

End ApplicationsFacts.

(** ** Loading and saving the profile *)

Module ProfileSessionFacts.
Import Js JsMore ProfileSession.

Section Page.
Context `{Page profile form payload}.
Implicit Types (st : state profile form) (e : event profile form).

Lemma step_saved_id st e : brings_none e → saved_id (step st e) = saved_id st.
Proof.
  destruct e as [[]|?|[]|[]]; try done.
  intros _. unfold step, save. simpl. by destruct (handleSave st).
Qed.

Lemma run_saved_id st (es : list (event profile form)) :
  Forall brings_none es → saved_id (foldl step st es) = saved_id st.
Proof.
  intros Hes. revert st.
  induction Hes as [|e es He _ IH]; intros st; simpl; [done|].
  by rewrite IH, step_saved_id.
Qed.

(** X19. Once a profile with an id has come from the API, every later
    save that sends a request updates the profile of that id, whatever
    the form was set to and whatever requests failed in between; a save
    sends nothing exactly when building its payload throws, and then it
    shows the failure and keeps the profile it had. The id is the one of
    the last profile the initial load, an upload or a save that was sent
    brought, and while there is none a save that sends a request creates
    the profile. *)
Theorem save_updates_saved_profile st (u : string)
    (es : list (event profile form)) (r : reply profile) :
  saved_id st = Some u →
  Forall brings_none es →
  fst (save r (foldl step st es))
  = match build_payload (edited (foldl step st es)) with
    | Returned data => Some (Update u data)
    | Thrown => None
    end
  ∧ (∀ data st0,
       saved_id (mounted (Ok data) st0) = reply_id (Ok data)
       ∧ saved_id (upload (Ok data) st0) = reply_id (Ok data)
       ∧ (is_Some (fst (save (Ok data) st0)) →
          saved_id (snd (save (Ok data) st0)) = reply_id (Ok data)))
  ∧ (∀ r0 st0,
       fst (save r0 st0) = None →
       build_payload (edited st0) = Thrown
       ∧ loaded (snd (save r0 st0)) = loaded st0
       ∧ message (snd (save r0 st0)) = Some (failure, "Failed to save profile"))
  ∧ (∀ st0, saved_id st0 = None →
       fst (save r st0)
       = match build_payload (edited st0) with
         | Returned data => Some (Create data)
         | Thrown => None
         end).
Proof.
  intros Hu Hes. split; [|split; [|split]].
  - pose proof (run_saved_id st es Hes) as Hid. rewrite Hu in Hid.
    unfold save, handleSave. simpl. rewrite Hid.
    by destruct (build_payload _).
  - intros data st0. split; [done|]. split; [done|].
    unfold save. simpl. by intros [req ->].
  - intros r0 st0. unfold save. simpl. intros Hn. rewrite Hn.
    split; [|done]. unfold handleSave in Hn.
    by destruct (build_payload (edited st0)).
  - intros st0 Hn. unfold save, handleSave. simpl. rewrite Hn.
    by destruct (build_payload _).
Qed.

End Page.

End ProfileSessionFacts.

(** ** The further statements at the sample records *)

Module MoreWitnesses.
Import Js JsMore ProfileTags ProfileEntries MoreSamples.

Lemma toggleSource_flips_witness :
  NoDup (SearchForm.sources two_sources)
  ∧ (NoDup (SearchForm.sources (SearchForm.toggleSource "jsearch" two_sources))
     ∧ ("jsearch" ∈ SearchForm.sources (SearchForm.toggleSource "jsearch" two_sources)
        ↔ "jsearch" ∉ SearchForm.sources two_sources)
     ∧ (∀ other, other ≠ "jsearch" →
          other ∈ SearchForm.sources (SearchForm.toggleSource "jsearch" two_sources)
          ↔ other ∈ SearchForm.sources two_sources)
     ∧ (SearchForm.query (SearchForm.toggleSource "jsearch" two_sources),
        SearchForm.location (SearchForm.toggleSource "jsearch" two_sources),
        SearchForm.minScore (SearchForm.toggleSource "jsearch" two_sources),
        SearchForm.experienceLevel (SearchForm.toggleSource "jsearch" two_sources),
        SearchForm.employmentType (SearchForm.toggleSource "jsearch" two_sources),
        SearchForm.datePosted (SearchForm.toggleSource "jsearch" two_sources),
        SearchForm.remoteOnly (SearchForm.toggleSource "jsearch" two_sources))
       = (SearchForm.query two_sources, SearchForm.location two_sources,
          SearchForm.minScore two_sources, SearchForm.experienceLevel two_sources,
          SearchForm.employmentType two_sources, SearchForm.datePosted two_sources,
          SearchForm.remoteOnly two_sources)).
Proof.
  assert (NoDup (SearchForm.sources two_sources)) as H
    by (apply (bool_decide_unpack _); vm_compute; exact I).
  split; [exact H|]. apply (SourceFacts.toggleSource_flips "jsearch" two_sources H).
Defined.

Lemma toggleSource_twice_witness :
  NoDup (SearchForm.sources two_sources)
  ∧ (SearchForm.sources
       (SearchForm.toggleSource "jsearch" (SearchForm.toggleSource "jsearch" two_sources))
     ≡ₚ SearchForm.sources two_sources
     ∧ ("jsearch" ∉ SearchForm.sources two_sources →
        SearchForm.toggleSource "jsearch" (SearchForm.toggleSource "jsearch" two_sources)
        = two_sources)
     ∧ ("jsearch" ∈ SearchForm.sources two_sources →
        SearchForm.sources
          (SearchForm.toggleSource "jsearch"
             (SearchForm.toggleSource "jsearch" two_sources))
        = filter (λ s, s ≠ "jsearch") (SearchForm.sources two_sources) ++ ["jsearch"])).
Proof.
  assert (NoDup (SearchForm.sources two_sources)) as H
    by (apply (bool_decide_unpack _); vm_compute; exact I).
  split; [exact H|]. apply (SourceFacts.toggleSource_twice "jsearch" two_sources H).
Defined.

Lemma tags_stay_clean_witness :
  NoDup (tags skills_field skilled_form)
  ∧ Forall clean (tags skills_field skilled_form)
  ∧ NoDup (tags skills_field (foldl (tag_step skills_field) skilled_form tag_presses))
  ∧ Forall clean
      (tags skills_field (foldl (tag_step skills_field) skilled_form tag_presses)).
Proof.
  assert (NoDup (tags skills_field skilled_form)) as H1
    by (apply (bool_decide_unpack _); vm_compute; exact I).
  assert (Forall clean (tags skills_field skilled_form)) as H2.
  { repeat constructor; discriminate. }
  split; [exact H1|]. split; [exact H2|].
  apply (TagFacts.tags_stay_clean skills_field skilled_form tag_presses H1 H2).
Defined.

Lemma removeTag_addTag_witness :
  trim " rust " ≠ ""
  ∧ (trim " rust " ∉ tags skills_field skilled_form)
  ∧ removeTag skills_field (trim " rust ")
      (fst (addTag skills_field " rust " skilled_form)) = skilled_form.
Proof.
  assert (trim " rust " ≠ "") as H1 by discriminate.
  assert (trim " rust " ∉ tags skills_field skilled_form) as H2
    by (apply (bool_decide_unpack _); vm_compute; exact I).
  split; [exact H1|]. split; [exact H2|].
  apply (TagFacts.removeTag_addTag skills_field " rust " skilled_form H1 H2).
Defined.

(** The sample experiences have no holes and their lists of skills. *)
Lemma two_jobs_holeless : holeless two_jobs.
Proof.
  unfold holeless, two_jobs. rewrite !not_elem_of_cons.
  repeat split; try discriminate. apply not_elem_of_nil.
Defined.

Lemma two_jobs_listed : listed two_jobs.
Proof.
  unfold listed, two_jobs. repeat apply Forall_cons_2; [| |apply Forall_nil_2].
  - exists acme_job, ["python"; "sql"]. split; reflexivity.
  - exists EMPTY_EXP, []. split; reflexivity.
Defined.

Lemma experiences_stay_listed_witness :
  listed (work_experience editing)
  ∧ drawn (length (work_experience editing)) entry_session
  ∧ ∃ st', entry_run editing entry_session = Returned st'
           ∧ listed (work_experience st').
Proof.
  assert (drawn (length (work_experience editing)) entry_session) as H.
  { simpl. repeat split; try lia. apply (bool_decide_unpack _). vm_compute. exact I. }
  split; [exact two_jobs_listed|]. split; [exact H|].
  apply (EntryFacts.experiences_stay_listed editing entry_session two_jobs_listed H).
Defined.

Lemma remove_entry_positions_witness :
  holeless two_jobs
  ∧ (∀ j, j < 0 → remove_entry 0 two_jobs !! j = two_jobs !! j)
  ∧ (∀ j, (0 ≤ j)%nat → remove_entry 0 two_jobs !! j = two_jobs !! S j)
  ∧ (0 < length two_jobs → length (remove_entry 0 two_jobs) = pred (length two_jobs))
  ∧ ((length two_jobs ≤ 0)%nat → remove_entry 0 two_jobs = two_jobs).
Proof.
  split; [exact two_jobs_holeless|].
  apply (EntryFacts.remove_entry_positions two_jobs 0 two_jobs_holeless).
Defined.

Lemma add_entry_remove_witness :
  holeless two_jobs
  ∧ add_entry EMPTY_EDU two_jobs = two_jobs ++ [Item EMPTY_EDU]
  ∧ add_entry EMPTY_EDU two_jobs !! length two_jobs = Some (Item EMPTY_EDU)
  ∧ (∀ j, j < length two_jobs → add_entry EMPTY_EDU two_jobs !! j = two_jobs !! j)
  ∧ holeless (add_entry EMPTY_EDU two_jobs)
  ∧ remove_entry (length two_jobs) (add_entry EMPTY_EDU two_jobs) = two_jobs.
Proof.
  split; [exact two_jobs_holeless|].
  apply (EntryFacts.add_entry_remove EMPTY_EDU two_jobs two_jobs_holeless).
Defined.

Lemma updateExperience_frame_witness :
  holeless two_jobs
  ∧ 0 < length two_jobs
  ∧ length (updateExperience 0 "position" (Str "Engineer") two_jobs) = length two_jobs
  ∧ (∀ j, j ≠ 0 →
       updateExperience 0 "position" (Str "Engineer") two_jobs !! j = two_jobs !! j)
  ∧ ∃ o, updateExperience 0 "position" (Str "Engineer") two_jobs !! 0 = Some (Item o)
      ∧ o !! "position" = Some (Str "Engineer")
      ∧ ∀ k, k ≠ "position" → k ≠ "end_date" →
          o !! k = object_of (two_jobs !! 0) !! k.
Proof.
  assert (0 < length two_jobs) as H by (simpl; lia).
  split; [exact two_jobs_holeless|]. split; [exact H|].
  apply (EntryFacts.updateExperience_frame two_jobs 0 "position" (Str "Engineer")
           two_jobs_holeless H).
Defined.

Lemma updateExperience_end_date_witness :
  holeless two_jobs
  ∧ 0 < length two_jobs
  ∧ ∃ o, updateExperience 0 "is_current" (Bool true) two_jobs !! 0 = Some (Item o)
      ∧ o !! "end_date"
        = if bool_decide ("is_current" = "is_current") && truthy_val (Bool true)
          then Some (Str "")
          else if bool_decide ("is_current" = "end_date") then Some (Bool true)
          else object_of (two_jobs !! 0) !! "end_date".
Proof.
  assert (0 < length two_jobs) as H by (simpl; lia).
  split; [exact two_jobs_holeless|]. split; [exact H|].
  apply (EntryFacts.updateExperience_end_date two_jobs 0 "is_current" (Bool true)
           two_jobs_holeless H).
Defined.

Lemma updateExperience_past_end_witness :
  holeless two_jobs
  ∧ (length two_jobs ≤ 4)%nat
  ∧ length (updateExperience 4 "company" (Str "Initech") two_jobs) = 5
  ∧ (∀ j, j < length two_jobs →
       updateExperience 4 "company" (Str "Initech") two_jobs !! j = two_jobs !! j)
  ∧ (∀ j, (length two_jobs ≤ j)%nat → j < 4 →
       updateExperience 4 "company" (Str "Initech") two_jobs !! j = Some Hole)
  ∧ updateExperience 4 "company" (Str "Initech") two_jobs !! 4
    = Some (Item (if String.eqb "company" "is_current" && truthy_val (Str "Initech")
                  then <["end_date" := Str ""]> {[ "company" := Str "Initech" ]}
                  else {[ "company" := Str "Initech" ]})).
Proof.
  assert (length two_jobs ≤ 4)%nat as H by (simpl; lia).
  split; [exact two_jobs_holeless|]. split; [exact H|].
  apply (EntryFacts.updateExperience_past_end two_jobs 4 "company" (Str "Initech")
           two_jobs_holeless H).
Defined.

Lemma addExpSkill_cases_witness :
  holeless two_jobs
  ∧ (trim (default "" (newExpSkill editing !! 0)) = "" →
     addExpSkill 0 (newExpSkill editing) two_jobs = Returned (two_jobs, newExpSkill editing))
  ∧ (trim (default "" (newExpSkill editing !! 0)) ≠ "" → (length two_jobs ≤ 0)%nat →
     addExpSkill 0 (newExpSkill editing) two_jobs = Thrown)
  ∧ (∀ o l, trim (default "" (newExpSkill editing !! 0)) ≠ "" →
       two_jobs !! 0 = Some (Item o) → o !! "skills" = Some (Tags l) → NoDup l →
       ∃ a' inputs' l',
         addExpSkill 0 (newExpSkill editing) two_jobs = Returned (a', inputs')
         ∧ a' = <[0 := Item (<["skills" := Tags l']> o)]> two_jobs
         ∧ NoDup l'
         ∧ (∀ s, s ∈ l' ↔ s ∈ l ∨ s = trim (default "" (newExpSkill editing !! 0)))
         ∧ (trim (default "" (newExpSkill editing !! 0)) ∉ l →
            l' = l ++ [trim (default "" (newExpSkill editing !! 0))]
            ∧ inputs' !! 0 = Some "")
         ∧ (trim (default "" (newExpSkill editing !! 0)) ∈ l →
            a' = two_jobs ∧ inputs' = newExpSkill editing)).
Proof.
  split; [exact two_jobs_holeless|].
  apply (EntryFacts.addExpSkill_cases 0 (newExpSkill editing) two_jobs
           two_jobs_holeless).
Defined.

Lemma removeExpSkill_addExpSkill_witness :
  holeless two_jobs
  ∧ two_jobs !! 0 = Some (Item acme_job)
  ∧ acme_job !! "skills" = Some (Tags ["python"; "sql"])
  ∧ trim (default "" (newExpSkill editing !! 0)) ≠ ""
  ∧ (trim (default "" (newExpSkill editing !! 0)) ∉ ["python"; "sql"])
  ∧ ∃ a' inputs',
      addExpSkill 0 (newExpSkill editing) two_jobs = Returned (a', inputs')
      ∧ removeExpSkill 0 (trim (default "" (newExpSkill editing !! 0))) a'
        = Returned two_jobs.
Proof.
  assert (two_jobs !! 0 = Some (Item acme_job)) as H1 by reflexivity.
  assert (acme_job !! "skills" = Some (Tags ["python"; "sql"])) as H2 by reflexivity.
  assert (trim (default "" (newExpSkill editing !! 0)) ≠ "") as H3
    by (vm_compute; discriminate).
  assert (trim (default "" (newExpSkill editing !! 0)) ∉ ["python"; "sql"]) as H4
    by (apply (bool_decide_unpack _); vm_compute; exact I).
  split; [exact two_jobs_holeless|]. split; [exact H1|]. split; [exact H2|].
  split; [exact H3|]. split; [exact H4|].
  apply (EntryFacts.removeExpSkill_addExpSkill 0 (newExpSkill editing) two_jobs
           acme_job ["python"; "sql"] two_jobs_holeless H1 H2 H3 H4).
Defined.

Lemma update_entry_compose_witness :
  holeless two_jobs
  ∧ 0 < length two_jobs
  ∧ 1 < length two_jobs
  ∧ update_entry 0 "city" (Str "Goa") (update_entry 0 "city" (Str "Pune") two_jobs)
    = update_entry 0 "city" (Str "Goa") two_jobs
  ∧ (0 ≠ 1 ∨ "city" ≠ "state" →
     update_entry 0 "city" (Str "Pune") (update_entry 1 "state" (Str "Goa") two_jobs)
     = update_entry 1 "state" (Str "Goa") (update_entry 0 "city" (Str "Pune") two_jobs)).
Proof.
  assert (0 < length two_jobs) as H1 by (simpl; lia).
  assert (1 < length two_jobs) as H2 by (simpl; lia).
  split; [exact two_jobs_holeless|]. split; [exact H1|]. split; [exact H2|].
  apply (EntryFacts.update_entry_compose two_jobs 0 1 "city" "state" (Str "Pune")
           (Str "Goa") two_jobs_holeless H1 H2).
Defined.

Lemma error_banner_stays_witness :
  ApplicationsSession.banner failed_page
  ∧ ApplicationsSession.banner (fst (ApplicationsSession.run failed_page page_session)).
Proof.
  assert (ApplicationsSession.banner failed_page) as H.
  { exists "Failed to load applications". split; [reflexivity|discriminate]. }
  split; [exact H|].
  apply (ApplicationsFacts.error_banner_stays failed_page page_session H).
Defined.

Lemma requests_name_valid_statuses_witness :
  ApplicationsSession.filter ApplicationsSession.initial ∈ ApplicationsPage.STATUSES
  ∧ Forall ApplicationsSession.raised page_session
  ∧ ∀ r s,
      r ∈ snd (ApplicationsSession.run ApplicationsSession.initial page_session) →
      ApplicationsSession.named_status r = Some s →
      s ∈ ApplicationsPage.VALID_STATUSES ∧ s ≠ "all".
Proof.
  assert (ApplicationsSession.filter ApplicationsSession.initial
          ∈ ApplicationsPage.STATUSES) as H1
    by (apply (bool_decide_unpack _); vm_compute; exact I).
  assert (Forall ApplicationsSession.raised page_session) as H2.
  { unfold page_session. repeat apply Forall_cons_2; try apply Forall_nil_2;
      try exact I; apply (bool_decide_unpack _); vm_compute; exact I. }
  split; [exact H1|]. split; [exact H2|].
  apply (ApplicationsFacts.requests_name_valid_statuses ApplicationsSession.initial
           page_session H1 H2).
Defined.

Lemma save_updates_saved_profile_witness :
  ProfileSession.saved_id saved_page = Some "u-1"
  ∧ Forall ProfileSession.brings_none quiet_session
  ∧ fst (ProfileSession.save (ProfileSession.Failed None)
           (foldl ProfileSession.step saved_page quiet_session))
    = match ProfileSession.build_payload
              (ProfileSession.edited
                 (foldl ProfileSession.step saved_page quiet_session)) with
      | Returned data => Some (ProfileSession.Update "u-1" data)
      | Thrown => None
      end
  ∧ (∀ data st0,
       ProfileSession.saved_id (ProfileSession.mounted (ProfileSession.Ok data) st0)
       = ProfileSession.reply_id (ProfileSession.Ok data)
       ∧ ProfileSession.saved_id (ProfileSession.upload (ProfileSession.Ok data) st0)
         = ProfileSession.reply_id (ProfileSession.Ok data)
       ∧ (is_Some (fst (ProfileSession.save (ProfileSession.Ok data) st0)) →
          ProfileSession.saved_id
            (snd (ProfileSession.save (ProfileSession.Ok data) st0))
          = ProfileSession.reply_id (ProfileSession.Ok data)))
  ∧ (∀ r0 st0,
       fst (ProfileSession.save r0 st0) = None →
       ProfileSession.build_payload (ProfileSession.edited st0) = Thrown
       ∧ ProfileSession.loaded (snd (ProfileSession.save r0 st0))
         = ProfileSession.loaded st0
       ∧ ProfileSession.message (snd (ProfileSession.save r0 st0))
         = Some (ProfileSession.failure, "Failed to save profile"))
  ∧ (∀ st0, ProfileSession.saved_id st0 = None →
       fst (ProfileSession.save (ProfileSession.Failed None) st0)
       = match ProfileSession.build_payload (ProfileSession.edited st0) with
         | Returned data => Some (ProfileSession.Create data)
         | Thrown => None
         end).
Proof.
  assert (ProfileSession.saved_id saved_page = Some "u-1") as H1 by reflexivity.
  assert (Forall ProfileSession.brings_none quiet_session) as H2
    by (repeat constructor).
  split; [exact H1|]. split; [exact H2|].
  apply (ProfileSessionFacts.save_updates_saved_profile saved_page "u-1"
           quiet_session (ProfileSession.Failed None) H1 H2).
Defined.

End MoreWitnesses.
